(** * xjfx: process execution and output streaming

    A shallow embedding of the process-launching part of [src/xjfx.py]
    ([ProcData], [_fmt_proc_cmd], [_fmt_proc_output], [_iterate_proc_output],
    [_iterate_proc_output_async], [_display_proc_result], [exec_cmd],
    [exec_cmd_async]) together with the Python and operating-system
    behaviour these functions rely on.

    Conventions.
    - [bytes] is Python's [bytes]: a list of 8-bit values.
    - [str] is Python's [str]: a list of Unicode code points.
    - A Python call that may raise is a computation in the monad [Py]: it
      produces the list of records handed to [LOGGER] so far and either a
      value or the exception that was raised.
    - The operating system's answer to a launch (does [Popen] start a child,
      what does the child write, how does it exit) is an explicit argument. *)

From Stdlib Require Import String Ascii Strings.Byte DecimalString.
From Stdlib Require Import List ZArith NArith Lia Bool Relations Wellfounded.
From Stdlib Require Permutation.
Import ListNotations.

Set Implicit Arguments.

(* ================================================================= *)
(** ** Python values *)

Module Py.

Definition bytes := list byte.
Definition str := list N.

(** The exceptions that the modelled code can raise. [OSError] stands for
    whatever [subprocess.Popen] or a pipe write raises ([FileNotFoundError],
    [BrokenPipeError], ...), with its [errno]. *)
Inductive PyError : Type :=
| OSError (errno : Z)
| TypeError
| AttributeError
| IndexError
| UnboundLocalError
| UnicodeDecodeError.

(** A value that is either [str] or [bytes] (the type of [ProcData.stdout]). *)
Inductive PyVal : Type :=
| PyStr (s : str)
| PyBytes (b : bytes).

(** Truth value of a [str] or [bytes] object: non-empty. *)
Definition truthy (v : PyVal) : bool :=
  match v with
  | PyStr [] => false
  | PyBytes [] => false
  | _ => true
  end.

(** Truth value of an [int | None]: [None] and [0] are false. *)
Definition truthy_int (v : option Z) : bool :=
  match v with
  | None => false
  | Some n => negb (n =? 0)%Z
  end.

(** [a == b] on [int | None]. *)
Definition eq_int (a b : option Z) : bool :=
  match a, b with
  | None, None => true
  | Some x, Some y => (x =? y)%Z
  | _, _ => false
  end.

(** A string literal of the source as a [str]. *)
Definition lit (s : string) : str :=
  map N_of_ascii (list_ascii_of_string s).

(** *** [bytes.decode()]: strict UTF-8 *)

Definition between (lo hi : N) (b : byte) : bool :=
  ((lo <=? Byte.to_N b) && (Byte.to_N b <=? hi))%N.

(** Payload (low six bits) of a continuation byte. *)
Definition low6 (b : byte) : N := (Byte.to_N b - 128)%N.

(** Well-formed UTF-8 byte sequences (Unicode, table 3-7): no overlong
    forms, no surrogates, nothing above U+10FFFF. [None] is Python's
    [UnicodeDecodeError]. *)
Fixpoint utf8_decode (bs : bytes) : option str :=
  match bs with
  | [] => Some []
  | b0 :: t0 =>
    let n0 := Byte.to_N b0 in
    if (n0 <=? 127)%N then
      option_map (cons n0) (utf8_decode t0)
    else if between 194 223 b0 then
      match t0 with
      | b1 :: t1 =>
        if between 128 191 b1
        then option_map (cons ((n0 - 192) * 64 + low6 b1)%N) (utf8_decode t1)
        else None
      | _ => None
      end
    else if between 224 239 b0 then
      match t0 with
      | b1 :: b2 :: t2 =>
        let lo := if (n0 =? 224)%N then 160%N else 128%N in
        let hi := if (n0 =? 237)%N then 159%N else 191%N in
        if between lo hi b1 && between 128 191 b2
        then option_map
               (cons ((n0 - 224) * 4096 + low6 b1 * 64 + low6 b2)%N)
               (utf8_decode t2)
        else None
      | _ => None
      end
    else if between 240 244 b0 then
      match t0 with
      | b1 :: b2 :: b3 :: t3 =>
        let lo := if (n0 =? 240)%N then 144%N else 128%N in
        let hi := if (n0 =? 244)%N then 143%N else 191%N in
        if between lo hi b1 && between 128 191 b2 && between 128 191 b3
        then option_map
               (cons ((n0 - 240) * 262144 + low6 b1 * 4096
                      + low6 b2 * 64 + low6 b3)%N)
               (utf8_decode t3)
        else None
      | _ => None
      end
    else None
  end.

(** *** [str.strip()] *)

(** [str.isspace] on one code point: the code points CPython's
    [_PyUnicode_IsWhitespace] accepts. *)
Definition isspace (c : N) : bool :=
  (((9 <=? c) && (c <=? 13)) || ((28 <=? c) && (c <=? 32))
   || (c =? 133) || (c =? 160) || (c =? 5760)
   || ((8192 <=? c) && (c <=? 8202))
   || (c =? 8232) || (c =? 8233) || (c =? 8239) || (c =? 8287)
   || (c =? 12288))%N.

Fixpoint lstrip (s : str) : str :=
  match s with
  | [] => []
  | c :: t => if isspace c then lstrip t else s
  end.

Definition rstrip (s : str) : str := rev (lstrip (rev s)).

(** [s.strip()] removes whitespace at both ends. *)
Definition strip (s : str) : str := rstrip (lstrip s).

(** *** [repr] of an [int] *)

Definition repr_int (z : Z) : str :=
  lit (NilZero.string_of_int (Z.to_int z)).

(** *** Iterating a binary stream *)

Definition newline : byte := x0a.

(** [for raw_line in stream]: the successive results of [readline()] on a
    stream that delivers [s] and then end-of-file. Every line keeps its
    terminating newline; a final fragment without one is a line too. *)
Fixpoint iter_lines (s : bytes) : list bytes :=
  match s with
  | [] => []
  | b :: t =>
    if Byte.eqb b newline then [b] :: iter_lines t
    else match iter_lines t with
         | [] => [[b]]
         | l :: ls => (b :: l) :: ls
         end
  end.

End Py.

(* ================================================================= *)
(** ** The [logging] boundary *)

Module Logging.
Import Py.

Definition DEBUG : Z := 10.
Definition INFO : Z := 20.
Definition WARNING : Z := 30.
Definition ERROR : Z := 40.

(** What one call of [LOGGER.debug] or [LOGGER.error] hands to the logging
    package: the level of the call, the message object and the arguments
    to be merged into it. *)
Record LogRecord : Type := mkRecord {
  levelno : Z;
  msg : PyVal;
  args : list str
}.

Definition is_error (r : LogRecord) : bool := (levelno r =? ERROR)%Z.
Definition is_debug (r : LogRecord) : bool := (levelno r =? DEBUG)%Z.

End Logging.

(* ================================================================= *)
(** ** Computations that log and may raise *)

Module Effect.
Import Py Logging.

Inductive result (A : Type) : Type :=
| Return (a : A)
| Raise (e : PyError).
Arguments Return {A} a.
Arguments Raise {A} e.

(** The records logged, in order, and how the computation ended. *)
Definition IO (A : Type) : Type := (list LogRecord * result A)%type.

Definition ret {A} (a : A) : IO A := ([], Return a).
Definition raise {A} (e : PyError) : IO A := ([], Raise e).

Definition bind {A B} (m : IO A) (k : A -> IO B) : IO B :=
  match m with
  | (l, Raise e) => (l, Raise e)
  | (l, Return a) => let (l', r) := k a in (l ++ l', r)
  end.

Definition logged {A} (m : IO A) : list LogRecord := fst m.
Definition outcome {A} (m : IO A) : result A := snd m.

(** [LOGGER.debug(msg, *args)] and [LOGGER.error(msg)]. *)
Definition LOGGER_debug (call : str * list str) : IO unit :=
  ([mkRecord DEBUG (PyStr (fst call)) (snd call)], Return tt).
Definition LOGGER_error (m : PyVal) : IO unit :=
  ([mkRecord ERROR m []], Return tt).

(** [bytes.decode()] *)
Definition decode (b : bytes) : IO str :=
  match utf8_decode b with
  | Some s => ret s
  | None => raise UnicodeDecodeError
  end.

End Effect.

Declare Scope py_scope.
Delimit Scope py_scope with py.
Notation "x <- m ;; k" := (Effect.bind m (fun x => k))
  (at level 61, m at next level, right associativity) : py_scope.
Notation "m ;; k" := (Effect.bind m (fun _ => k))
  (at level 61, right associativity) : py_scope.

(* ================================================================= *)
(** ** [colorama] and [shlex] *)

Module Colorama.
Import Py.

Definition CSI : str := [27%N; 91%N].
Definition Fore_BLUE : str := CSI ++ lit "34m".
Definition Fore_YELLOW : str := CSI ++ lit "33m".
Definition Fore_WHITE : str := CSI ++ lit "37m".
Definition Fore_LIGHTBLACK_EX : str := CSI ++ lit "90m".
Definition Style_BRIGHT : str := CSI ++ lit "1m".
Definition Style_RESET_ALL : str := CSI ++ lit "0m".

End Colorama.

Module Shlex.
Import Py.

(** The characters [shlex.quote] leaves alone: ASCII letters, digits and
    [_@%+=:,./-]. *)
Definition safe (c : N) : bool :=
  (((48 <=? c) && (c <=? 57)) || ((65 <=? c) && (c <=? 90))
   || ((97 <=? c) && (c <=? 122))
   || (c =? 95) || (c =? 64) || (c =? 37) || (c =? 43) || (c =? 61)
   || (c =? 58) || (c =? 44) || (c =? 46) || (c =? 47) || (c =? 45))%N.

Definition apostrophe : N := 39.
Definition dquote : N := 34.

(** [s.replace(<apostrophe>, <apostrophe dquote apostrophe dquote apostrophe>)] *)
Definition escape (s : str) : str :=
  flat_map (fun c => if (c =? apostrophe)%N
                     then [apostrophe; dquote; apostrophe; dquote; apostrophe]
                     else [c]) s.

Definition quote (s : str) : str :=
  match s with
  | [] => [apostrophe; apostrophe]
  | _ => if forallb safe s then s
         else [apostrophe] ++ escape s ++ [apostrophe]
  end.

(** [sep.join(parts)] *)
Fixpoint str_join (sep : str) (parts : list str) : str :=
  match parts with
  | [] => []
  | [p] => p
  | p :: rest => p ++ sep ++ str_join sep rest
  end.

Definition join (split_command : list str) : str :=
  str_join [32%N] (map quote split_command).

End Shlex.

(* ================================================================= *)
(** ** [subprocess] *)

Module Subprocess.
Import Py Effect.
Local Open Scope Z_scope.

Definition PIPE : Z := -1.
Definition STDOUT : Z := -2.
Definition DEVNULL : Z := -3.

(** What a started child does, as far as the launcher can observe it:
    whether writing and flushing the input raises, the bytes that arrive on
    the pipe attached to its standard output and on the one attached to its
    standard error before each reaches end-of-file, and its exit status.

    A [Child] is the record of a launch in which every stream the launcher
    reads does reach end-of-file and the child does exit. A launch in which
    the launcher waits for ever (a pipe nobody empties, a child that waits
    for the end of an input the launcher keeps open) has no [Child]: what
    [Xjfx.exec_cmd] computes from one is what the call results in if it
    comes back, and whether it comes back is the matter of [Pipes]. *)
Record Child : Type := mkChild {
  write_error : option PyError;
  out_data : bytes;
  err_data : bytes;
  exit_status : Z
}.

(** The operating system's answer to [Popen(...)]: the constructor raises,
    or a child is started. *)
Inductive Launch : Type :=
| LaunchFails (e : PyError)
| LaunchStarts (c : Child).

(** The [Popen] object. An attribute [stdout] or [stderr] is a stream only
    when the corresponding argument was [PIPE], and [None] otherwise. *)
Record Popen : Type := mkPopen {
  child : Child;
  stdout : option bytes;
  stderr : option bytes;
  returncode : Z
}.

Definition Popen_init (os : Launch) (stdout_arg stderr_arg : option Z)
  : IO Popen :=
  match os with
  | LaunchFails e => raise e
  | LaunchStarts c =>
    ret {| child := c;
           stdout := if eq_int stdout_arg (Some PIPE)
                     then Some (out_data c) else None;
           stderr := if eq_int stderr_arg (Some PIPE)
                     then Some (err_data c) else None;
           returncode := exit_status c |}
  end.

(** [proc_desc.stdin.write(input)] followed by [proc_desc.stdin.flush()]. *)
Definition stdin_write_flush (p : Popen) (input : bytes) : IO unit :=
  match write_error (child p) with
  | Some e => raise e
  | None => ret tt
  end.

End Subprocess.

(* ================================================================= *)
(** ** [xjfx.py] *)

Module Xjfx.
Import Py Logging Effect.
Local Open Scope py_scope.

Definition DEVNULL : Z := Subprocess.DEVNULL.
Definition STDOUT : Z := Subprocess.STDOUT.
Definition PIPE : Z := Subprocess.PIPE.

(** [class ProcStreamClassifier(enum.Enum)] *)
Module ProcStreamClassifier.
Inductive t : Type := OUTPUT | STDOUT | STDERR.

Definition value (c : t) : Z :=
  match c with OUTPUT => 0 | STDOUT => 1 | STDERR => 2 end.

Definition name (c : t) : str :=
  match c with
  | OUTPUT => lit "OUTPUT"
  | STDOUT => lit "STDOUT"
  | STDERR => lit "STDERR"
  end.

Definition eqb (a b : t) : bool := (value a =? value b)%Z.
End ProcStreamClassifier.

(** [class ProcData] *)
Record ProcData : Type := mkProcData {
  decode_output : bool;
  _stdout : bytes;
  _stderr : bytes;
  retcode : Z
}.

Definition ProcData_init (decode_output : bool) : ProcData :=
  {| decode_output := decode_output;
     _stdout := [];
     _stderr := [];
     retcode := 0 |}.

(** The properties [stdout] and [stderr]. *)
Definition ProcData_stdout (self : ProcData) : IO PyVal :=
  if decode_output self
  then s <- decode (_stdout self) ;; ret (PyStr s)
  else ret (PyBytes (_stdout self)).

Definition ProcData_stderr (self : ProcData) : IO PyVal :=
  if decode_output self
  then s <- decode (_stderr self) ;; ret (PyStr s)
  else ret (PyBytes (_stderr self)).

(** Their setters, and the assignment to the attribute [retcode]. *)
Definition ProcData_set_stdout (self : ProcData) (lines : bytes) : ProcData :=
  {| decode_output := decode_output self;
     _stdout := lines;
     _stderr := _stderr self;
     retcode := retcode self |}.

Definition ProcData_set_stderr (self : ProcData) (lines : bytes) : ProcData :=
  {| decode_output := decode_output self;
     _stdout := _stdout self;
     _stderr := lines;
     retcode := retcode self |}.

Definition ProcData_set_retcode (self : ProcData) (code : Z) : ProcData :=
  {| decode_output := decode_output self;
     _stdout := _stdout self;
     _stderr := _stderr self;
     retcode := code |}.

(** The message and the arguments of the record announcing a command. *)
Definition _fmt_proc_cmd (args : list str) : str * list str :=
  (lit "%s[executing]%s `%s`",
   [Colorama.Fore_WHITE ++ Colorama.Style_BRIGHT;
    Colorama.Style_RESET_ALL;
    Shlex.join args]).

(** [_fmt_proc_output]: the message and the arguments of the record for
    one output line. The local [fore_color] is [None] while no branch has
    bound it; reading it unbound would raise. *)
Definition _fmt_proc_output (stream_class : ProcStreamClassifier.t) (line : str)
  : IO (str * list str) :=
  let fore_color : option str := None in
  let fore_color :=
    if ProcStreamClassifier.eqb stream_class ProcStreamClassifier.OUTPUT
    then Some Colorama.Fore_LIGHTBLACK_EX
    else fore_color in
  let fore_color :=
    if ProcStreamClassifier.eqb stream_class ProcStreamClassifier.STDOUT
    then Some Colorama.Fore_BLUE
    else if ProcStreamClassifier.eqb stream_class ProcStreamClassifier.STDERR
         then Some Colorama.Fore_YELLOW
         else fore_color in
  match fore_color with
  | None => raise UnboundLocalError
  | Some fore_color =>
    ret (lit "    %s[%s]%s %s%s%s" ++ [13%N],
         [fore_color ++ Colorama.Style_BRIGHT;
          ProcStreamClassifier.name stream_class;
          Colorama.Style_RESET_ALL;
          fore_color;
          strip line;
          Colorama.Style_RESET_ALL])
  end.

(** The body of [for raw_line in stream] in [_iterate_proc_output], run
    over the lines the stream delivers. *)
Fixpoint for_raw_line (lines : list bytes) (stream_class : ProcStreamClassifier.t)
         (accumulated_output : bytes) : IO bytes :=
  match lines with
  | [] => ret accumulated_output
  | raw_line :: rest =>
    line <- decode raw_line ;;
    call <- _fmt_proc_output stream_class line ;;
    LOGGER_debug call ;;
    for_raw_line rest stream_class (accumulated_output ++ raw_line)
  end.

(** [stream] is the attribute of the [Popen] object: a stream, given by the
    bytes it delivers, or [None], which cannot be iterated. *)
Definition _iterate_proc_output (stream : option bytes)
           (stream_class : ProcStreamClassifier.t) : IO bytes :=
  match stream with
  | None => raise TypeError
  | Some s => for_raw_line (iter_lines s) stream_class []
  end.

(** The body of [async for raw_line in stream] in
    [_iterate_proc_output_async]. The local [accumulated_output] is
    [None] while it is unbound. *)
Fixpoint async_for_raw_line (lines : list bytes)
         (stream_class : ProcStreamClassifier.t)
         (accumulated_output : option bytes) : IO (option bytes) :=
  match lines with
  | [] => ret accumulated_output
  | raw_line :: rest =>
    line <- decode raw_line ;;
    call <- _fmt_proc_output stream_class line ;;
    LOGGER_debug call ;;
    updated <- match accumulated_output with
               | None => raise UnboundLocalError
               | Some a => ret (a ++ raw_line)
               end ;;
    async_for_raw_line rest stream_class (Some updated)
  end.

(** The coroutine [_iterate_proc_output_async], run to completion. Its
    first statement [accumulated_output: b''] is an annotation and binds
    nothing. *)
Definition _iterate_proc_output_async (stream : option bytes)
           (stream_class : ProcStreamClassifier.t) : IO bytes :=
  let accumulated_output : option bytes := None in
  match stream with
  | None => raise TypeError
  | Some s =>
    final <- async_for_raw_line (iter_lines s) stream_class accumulated_output ;;
    match final with
    | None => raise UnboundLocalError
    | Some a => ret a
    end
  end.

(** The text of the record reporting a failed command. *)
Definition returned_message (args : list str) (code : Z) : str :=
  lit "`" ++ Shlex.join args ++ lit "` returned: " ++ repr_int code.

(** [effective_level] is the value of [LOGGER.getEffectiveLevel()]. *)
Definition _display_proc_result (effective_level : Z) (args : list str)
           (ignore_retcode : bool) (proc_data : ProcData) : IO unit :=
  if negb ignore_retcode && negb (retcode proc_data =? 0)%Z then
    LOGGER_error (PyStr (returned_message args (retcode proc_data))) ;;
    if (effective_level >? DEBUG)%Z then
      out <- ProcData_stdout proc_data ;;
      (if truthy out
       then out' <- ProcData_stdout proc_data ;; LOGGER_error out'
       else ret tt) ;;
      err <- ProcData_stderr proc_data ;;
      (if truthy err
       then err' <- ProcData_stderr proc_data ;; LOGGER_error err'
       else ret tt)
    else ret tt
  else ret tt.

(** [exec_cmd]. [os] is the operating system's answer to the [Popen] call
    and [effective_level] the logger's level; [cwd] and the keyword
    arguments are handed to [Popen] and reach the model through [os]. The
    keyword arguments are taken to leave the pipes as [exec_cmd] expects
    them, binary: a call that asks [Popen] for text streams ([text],
    [encoding], [errors], [universal_newlines]) is outside the model. The
    value is the result of a call that comes back (see [Subprocess.Child]);
    a call that waits for ever has none. *)
Definition exec_cmd (os : Subprocess.Launch) (effective_level : Z)
           (args : list str) (input : option bytes)
           (stdout stderr : option Z) (cwd : option str)
           (ignore_retcode decode_output : bool) : IO ProcData :=
  LOGGER_debug (_fmt_proc_cmd args) ;;
  let proc_data := ProcData_init decode_output in
  proc_desc <- Subprocess.Popen_init os stdout stderr ;;
  match input with
  | Some data => Subprocess.stdin_write_flush proc_desc data
  | None => ret tt
  end ;;
  proc_data <-
    (if truthy_int stdout
     then lines <- _iterate_proc_output
                     (Subprocess.stdout proc_desc)
                     (if eq_int stderr (Some STDOUT)
                      then ProcStreamClassifier.OUTPUT
                      else ProcStreamClassifier.STDOUT) ;;
          ret (ProcData_set_stdout proc_data lines)
     else ret proc_data) ;;
  proc_data <-
    (if truthy_int stderr && negb (eq_int stderr (Some STDOUT))
     then lines <- _iterate_proc_output
                     (Subprocess.stderr proc_desc)
                     ProcStreamClassifier.STDERR ;;
          ret (ProcData_set_stderr proc_data lines)
     else ret proc_data) ;;
  let proc_data :=
    ProcData_set_retcode proc_data (Subprocess.returncode proc_desc) in
  _display_proc_result effective_level args ignore_retcode proc_data ;;
  ret proc_data.

(** What [proc_desc] is bound to in [exec_cmd_async]: the call
    [asyncio.create_subprocess_exec(...)] is not awaited, so the name holds
    the coroutine object and no process exists. The statements that follow
    an attribute access on it are transcribed as they stand, with the
    drains run as [await] would run them. *)
Inductive AsyncHandle : Type :=
| CoroutineObject
| ProcessObject (p : Subprocess.Popen).

(** Attribute access on the handle; a coroutine object has none of the
    attributes of a process. *)
Definition handle_attr {A} (h : AsyncHandle) (get : Subprocess.Popen -> A)
  : IO A :=
  match h with
  | CoroutineObject => raise AttributeError
  | ProcessObject p => ret (get p)
  end.

(** [exec_cmd_async], run to completion. *)
Definition exec_cmd_async (effective_level : Z)
           (args : list str) (input : option bytes)
           (stdout stderr : option Z) (cwd : option str)
           (ignore_retcode decode_output : bool) : IO ProcData :=
  LOGGER_debug (_fmt_proc_cmd args) ;;
  let proc_data := ProcData_init decode_output in
  match args with
  | [] => raise IndexError
  | _ :: _ => ret tt
  end ;;
  let proc_desc := CoroutineObject in
  match input with
  | Some data =>
    p <- handle_attr proc_desc (fun p => p) ;;
    Subprocess.stdin_write_flush p data
  | None => ret tt
  end ;;
  proc_data <-
    (if truthy_int stdout
     then stream <- handle_attr proc_desc Subprocess.stdout ;;
          lines <- _iterate_proc_output_async
                     stream
                     (if eq_int stderr (Some STDOUT)
                      then ProcStreamClassifier.OUTPUT
                      else ProcStreamClassifier.STDOUT) ;;
          ret (ProcData_set_stdout proc_data lines)
     else ret proc_data) ;;
  proc_data <-
    (if truthy_int stderr && negb (eq_int stderr (Some STDOUT))
     then stream <- handle_attr proc_desc Subprocess.stderr ;;
          lines <- _iterate_proc_output_async
                     stream ProcStreamClassifier.STDERR ;;
          ret (ProcData_set_stderr proc_data lines)
     else ret proc_data) ;;
  code <- handle_attr proc_desc Subprocess.returncode ;;
  let proc_data := ProcData_set_retcode proc_data code in
  _display_proc_result effective_level args ignore_retcode proc_data ;;
  ret proc_data.

End Xjfx.

(* ================================================================= *)
(** ** The child, the two pipes and the launcher, step by step

    [exec_cmd] with [stdout=PIPE], [stderr=PIPE] and no input, run against a
    child that is still executing. A pipe holds at most [capacity] bytes:
    a write to a full pipe blocks the child, a read from an empty pipe whose
    writer is alive blocks the launcher. The launcher is where the source
    puts it: inside the call of [_iterate_proc_output] on [proc_desc.stdout]
    (line 196), then inside the call on [proc_desc.stderr] (line 200), then
    past the [with] block.

    The scope of the model: the call has no [input], so the standard input
    plays no part, and the child keeps both of its output streams open
    until it exits, so the launcher sees the end of either stream only after
    the exit. *)

Module Pipes.
Import Py.

Inductive Fd : Type := FdOut | FdErr.

(** A child: the bytes it writes, in order, each to its standard output or
    its standard error; it exits after the last one, which closes both. *)
Definition Program : Type := list (Fd * byte).

Fixpoint outs (p : Program) : bytes :=
  match p with
  | [] => []
  | (FdOut, b) :: t => b :: outs t
  | (FdErr, _) :: t => outs t
  end.

Fixpoint errs (p : Program) : bytes :=
  match p with
  | [] => []
  | (FdOut, _) :: t => errs t
  | (FdErr, b) :: t => b :: errs t
  end.

(** One drain in progress: [accumulated_output] and the bytes of the line
    that [readline()] is still collecting. *)
Definition Drain : Type := (bytes * bytes)%type.

(** The loop body of [_iterate_proc_output] on a complete [raw_line]:
    [raw_line.decode()] may raise, otherwise the line is appended. *)
Definition drain_line (accumulated_output raw_line : bytes) : option bytes :=
  match utf8_decode raw_line with
  | Some _ => Some (accumulated_output ++ raw_line)
  | None => None
  end.

(** The drain receives one more byte. *)
Definition drain_byte (d : Drain) (b : byte) : option Drain :=
  let (acc, cur) := d in
  if Byte.eqb b newline
  then option_map (fun acc' => (acc', [])) (drain_line acc (cur ++ [b]))
  else Some (acc, cur ++ [b]).

(** The drain sees end-of-file: a pending fragment is the last line. *)
Definition drain_eof (d : Drain) : option bytes :=
  let (acc, cur) := d in
  match cur with
  | [] => Some acc
  | _ => drain_line acc cur
  end.

(** A whole stream fed to a drain. *)
Fixpoint drain_all (d : Drain) (s : bytes) : option bytes :=
  match s with
  | [] => drain_eof d
  | b :: t =>
    match drain_byte d b with
    | Some d' => drain_all d' t
    | None => None
    end
  end.

Inductive Parent : Type :=
| DrainingStdout (d : Drain)
| DrainingStderr (out : bytes) (d : Drain)
| Finished (out err : bytes)
| Raised (e : PyError).

Record State : Type := mkState {
  prog : Program;
  running : bool;
  pipe_out : bytes;
  pipe_err : bytes;
  parent : Parent
}.

Definition initial (p : Program) : State :=
  {| prog := p; running := true; pipe_out := []; pipe_err := [];
     parent := DrainingStdout ([], []) |}.

Definition after_stdout_byte (d : Drain) (b : byte) : Parent :=
  match drain_byte d b with
  | Some d' => DrainingStdout d'
  | None => Raised UnicodeDecodeError
  end.

Definition after_stdout_eof (d : Drain) : Parent :=
  match drain_eof d with
  | Some out => DrainingStderr out ([], [])
  | None => Raised UnicodeDecodeError
  end.

Definition after_stderr_byte (out : bytes) (d : Drain) (b : byte) : Parent :=
  match drain_byte d b with
  | Some d' => DrainingStderr out d'
  | None => Raised UnicodeDecodeError
  end.

Definition after_stderr_eof (out : bytes) (d : Drain) : Parent :=
  match drain_eof d with
  | Some err => Finished out err
  | None => Raised UnicodeDecodeError
  end.

Section WithCapacity.

(** The number of bytes a pipe buffers. *)
Variable capacity : nat.

Inductive step : State -> State -> Prop :=
| child_writes_stdout b p po pe pa :
    length po < capacity ->
    step (mkState ((FdOut, b) :: p) true po pe pa)
         (mkState p true (po ++ [b]) pe pa)
| child_writes_stderr b p po pe pa :
    length pe < capacity ->
    step (mkState ((FdErr, b) :: p) true po pe pa)
         (mkState p true po (pe ++ [b]) pa)
| child_exits po pe pa :
    step (mkState [] true po pe pa)
         (mkState [] false po pe pa)
| stdout_byte p r b po pe d :
    step (mkState p r (b :: po) pe (DrainingStdout d))
         (mkState p r po pe (after_stdout_byte d b))
| stdout_eof p pe d :
    step (mkState p false [] pe (DrainingStdout d))
         (mkState p false [] pe (after_stdout_eof d))
| stderr_byte p r b po pe out d :
    step (mkState p r po (b :: pe) (DrainingStderr out d))
         (mkState p r po pe (after_stderr_byte out d b))
| stderr_eof p po out d :
    step (mkState p false po [] (DrainingStderr out d))
         (mkState p false po [] (after_stderr_eof out d)).

Definition reachable (p : Program) (s : State) : Prop :=
  clos_refl_trans_n1 State step (initial p) s.

(** [exec_cmd] has left the [with] block, normally or by an exception. *)
Definition final (s : State) : Prop :=
  match parent s with
  | Finished _ _ | Raised _ => True
  | _ => False
  end.

Definition stuck (s : State) : Prop := forall s', ~ step s s'.

(** Nobody can move and the launcher is still inside a drain. *)
Definition deadlock (s : State) : Prop := stuck s /\ ~ final s.

(** No run ends in a deadlock, and no run goes on for ever. *)
Definition completes (p : Program) : Prop :=
  (forall s, reachable p s -> ~ deadlock s)
  /\ Acc (fun s' s => step s s') (initial p).

(** The size of what is left to do; every step lowers it. *)
Definition phase (pa : Parent) : nat :=
  match pa with
  | DrainingStdout _ => 2
  | DrainingStderr _ _ => 1
  | _ => 0
  end.

Definition measure (s : State) : nat :=
  2 * length (prog s) + length (pipe_out s)
  + length (pipe_err s)
  + (if running s then 1 else 0) + phase (parent s).

End WithCapacity.

(** What holds of every state a run of the child [p] reaches: the bytes
    are all accounted for, and the launcher starts on the standard error
    only after the child has exited and its standard output is read. *)
Definition accounted (p : Program) (s : State) : Prop :=
  match parent s with
  | DrainingStdout (acc, cur) =>
    acc ++ cur ++ pipe_out s ++ outs (prog s) = outs p
    /\ pipe_err s ++ errs (prog s) = errs p
    /\ (running s = false -> prog s = [])
  | DrainingStderr out (acc, cur) =>
    running s = false /\ prog s = [] /\ pipe_out s = []
    /\ out = outs p
    /\ acc ++ cur ++ pipe_err s = errs p
  | Finished out err => out = outs p /\ err = errs p
  | Raised _ => True
  end.

(** The default size of a Linux pipe buffer: sixteen pages. *)
Definition linux_pipe_capacity : nat := 16 * 4096.

(** A child that fills both streams beyond [capacity]: first its standard
    error, then its standard output. *)
Definition noisy_child (capacity : nat) : Program :=
  repeat (FdErr, x65) (S capacity) ++ repeat (FdOut, x6f) (S capacity).

End Pipes.

(* ================================================================= *)
(** ** Vocabulary of the statements *)

Module Facts.
Import Py Logging Effect Xjfx.

(** The colour of a classifier. *)
Definition classifier_color (c : ProcStreamClassifier.t) : str :=
  match c with
  | ProcStreamClassifier.OUTPUT => Colorama.Fore_LIGHTBLACK_EX
  | ProcStreamClassifier.STDOUT => Colorama.Fore_BLUE
  | ProcStreamClassifier.STDERR => Colorama.Fore_YELLOW
  end.

(** The record [_iterate_proc_output] logs for a decoded line. *)
Definition output_record (c : ProcStreamClassifier.t) (line : str) : LogRecord :=
  mkRecord DEBUG
           (PyStr (lit "    %s[%s]%s %s%s%s" ++ [13%N]))
           [classifier_color c ++ Colorama.Style_BRIGHT;
            ProcStreamClassifier.name c;
            Colorama.Style_RESET_ALL;
            classifier_color c;
            strip line;
            Colorama.Style_RESET_ALL].

(** The record announcing the command. *)
Definition executing_record (args : list str) : LogRecord :=
  mkRecord DEBUG (PyStr (fst (_fmt_proc_cmd args))) (snd (_fmt_proc_cmd args)).

(** The record reporting a failed command. *)
Definition returned_record (args : list str) (code : Z) : LogRecord :=
  mkRecord ERROR (PyStr (returned_message args code)) [].

(** The classifier name and the line text carried by a line record: the
    second and the fifth argument of the format. *)
Definition record_classifier (r : LogRecord) : str := nth 1 (Logging.args r) [].
Definition record_text (r : LogRecord) : str := nth 4 (Logging.args r) [].

(** The lines that decode, up to the first one that does not. *)
Fixpoint decoded_prefix (lines : list bytes) : list str :=
  match lines with
  | [] => []
  | raw_line :: rest =>
    match utf8_decode raw_line with
    | Some line => line :: decoded_prefix rest
    | None => []
    end
  end.

Definition decodes (raw_line : bytes) : bool :=
  match utf8_decode raw_line with Some _ => true | None => false end.

Definition all_decode (lines : list bytes) : bool := forallb decodes lines.

(** No whitespace at the front, none at the back. *)
Definition starts_clean (s : str) : Prop :=
  match s with c :: _ => isspace c = false | [] => True end.
Definition ends_clean (s : str) : Prop := starts_clean (rev s).

(** The record that carries an aggregated buffer. *)
Definition aggregate_record (v : PyVal) : LogRecord := mkRecord ERROR v [].

(** The aggregated buffer [v] is logged when it is not empty. *)
Definition aggregate_if_any (v : PyVal) : list LogRecord :=
  if truthy v then [aggregate_record v] else [].

(** The statements of [_display_proc_result] under
    [if LOGGER.getEffectiveLevel() > logging.DEBUG] (lines 151 to 154). *)
Definition aggregates (pd : ProcData) : IO unit :=
  (out <- ProcData_stdout pd ;;
   (if truthy out
    then out' <- ProcData_stdout pd ;; LOGGER_error out'
    else ret tt) ;;
   err <- ProcData_stderr pd ;;
   (if truthy err
    then err' <- ProcData_stderr pd ;; LOGGER_error err'
    else ret tt))%py.

(** The statements of [exec_cmd] inside and after the [with] block, once
    [Popen] has started the child [c]. *)
Definition write_phase (c : Subprocess.Child) (input : option bytes) : IO unit :=
  match input with
  | Some _ =>
    match Subprocess.write_error c with
    | Some e => raise e
    | None => ret tt
    end
  | None => ret tt
  end.

Definition stdout_classifier (stderr : option Z) : ProcStreamClassifier.t :=
  if eq_int stderr (Some STDOUT)
  then ProcStreamClassifier.OUTPUT
  else ProcStreamClassifier.STDOUT.

Definition stdout_phase (c : Subprocess.Child) (stdout stderr : option Z)
           (pd : ProcData) : IO ProcData :=
  if truthy_int stdout
  then bind (_iterate_proc_output
               (if eq_int stdout (Some PIPE)
                then Some (Subprocess.out_data c) else None)
               (stdout_classifier stderr))
            (fun lines => ret (ProcData_set_stdout pd lines))
  else ret pd.

Definition stderr_phase (c : Subprocess.Child) (stderr : option Z)
           (pd : ProcData) : IO ProcData :=
  if truthy_int stderr && negb (eq_int stderr (Some STDOUT))
  then bind (_iterate_proc_output
               (if eq_int stderr (Some PIPE)
                then Some (Subprocess.err_data c) else None)
               ProcStreamClassifier.STDERR)
            (fun lines => ret (ProcData_set_stderr pd lines))
  else ret pd.

Definition report_phase (c : Subprocess.Child) (lvl : Z) (args : list str)
           (ignore_retcode : bool) (pd : ProcData) : IO ProcData :=
  bind (_display_proc_result
          lvl args ignore_retcode
          (ProcData_set_retcode pd (Subprocess.exit_status c)))
       (fun _ => ret (ProcData_set_retcode pd (Subprocess.exit_status c))).

(** A child that writes nothing and exits with [code]. *)
Definition silent_child (code : Z) : Subprocess.Child :=
  Subprocess.mkChild None [] [] code.

End Facts.

(* ================================================================= *)
(** ** Iterators *)

Module Iteration.
Import Py.

(** The exceptions of the utilities below. *)
Inductive Exception : Type :=
| ValueError
| ZeroDivisionError
| KeyError (key : str)
| BaseException.

(** An iterator consumed to its end: the items it yields, in order, and
    how it ends, by [StopIteration] ([None]) or by raising. *)
Record Run (T : Type) : Type := mkRun {
  yielded : list T;
  raised : option Exception
}.
Arguments mkRun {T} yielded raised.
Arguments yielded {T} r.
Arguments raised {T} r.

Definition yield {T} (t : T) (r : Run T) : Run T :=
  mkRun (t :: yielded r) (raised r).

Definition exhausted {T} : Run T := mkRun [] None.

(** [itertools.chain(a, b)]: [b] is consumed once [a] has stopped. *)
Definition chain {T} (a b : Run T) : Run T :=
  match raised a with
  | Some e => a
  | None => mkRun (yielded a ++ yielded b) (raised b)
  end.

Section Shared.

Context {A : Type}.

(** One [__next__] of [zip] over [refs] references to one iterator whose
    remaining items are [it]: each reference in turn is asked for an item.
    The answer is the tuple, or the position of the reference that found
    the iterator exhausted; the items taken before that are lost. *)
Fixpoint zip_next (position refs : nat) (it : list A)
  : (list A + nat) * list A :=
  match refs with
  | 0 => (inl [], it)
  | S refs' =>
    match it with
    | [] => (inr position, [])
    | x :: it' =>
      match zip_next (S position) refs' it' with
      | (inl t, it'') => (inl (x :: t), it'')
      | (inr p, it'') => (inr p, it'')
      end
    end
  end.

(** [zip] over the references, with or without [strict], consumed to its
    end. With [strict], an
    iterator exhausted at a reference after the first raises [ValueError];
    exhausted at the first one, the others are asked and must be exhausted
    too. [None]: out of fuel. *)
Fixpoint zip_loop (strict : bool) (fuel refs : nat) (it : list A)
  : option (Run (list A)) :=
  match fuel with
  | 0 => None
  | S fuel' =>
    match zip_next 0 refs it with
    | (inl t, it') => option_map (yield t) (zip_loop strict fuel' refs it')
    | (inr position, it') =>
      if strict then
        match position with
        | S _ => Some (mkRun [] (Some ValueError))
        | 0 => match it' with
               | [] => Some exhausted
               | _ :: _ => Some (mkRun [] (Some ValueError))
               end
        end
      else Some exhausted
    end
  end.

(** [zip] of no iterable yields nothing. *)
Definition zip (strict : bool) (refs : nat) (shared : list A)
  : option (Run (list A)) :=
  match refs with
  | 0 => Some exhausted
  | S _ => zip_loop strict (S (length shared)) refs shared
  end.

(** One pass of the [for] loop of [zip_longest] over its references:
    [slots] tells for each reference whether it is still the shared
    iterator ([true]) or was replaced by [repeat(fillvalue)]. [None]: the
    last active reference found the iterator exhausted and the generator
    returned. *)
Fixpoint longest_round (fillvalue : A) (slots : list bool) (num_active : nat)
         (it : list A) : option (list A * list bool * nat * list A) :=
  match slots with
  | [] => Some ([], [], num_active, it)
  | true :: rest =>
    match it with
    | x :: it' =>
      match longest_round fillvalue rest num_active it' with
      | Some (values, slots', na, it'') =>
        Some (x :: values, true :: slots', na, it'')
      | None => None
      end
    | [] =>
      match num_active - 1 with
      | 0 => None
      | S _ as num_active' =>
        match longest_round fillvalue rest num_active' [] with
        | Some (values, slots', na, it'') =>
          Some (fillvalue :: values, false :: slots', na, it'')
        | None => None
        end
      end
    end
  | false :: rest =>
    match longest_round fillvalue rest num_active it with
    | Some (values, slots', na, it'') =>
      Some (fillvalue :: values, false :: slots', na, it'')
    | None => None
    end
  end.

Fixpoint longest_loop (fillvalue : A) (fuel : nat) (slots : list bool)
         (num_active : nat) (it : list A) : option (Run (list A)) :=
  match fuel with
  | 0 => None
  | S fuel' =>
    match longest_round fillvalue slots num_active it with
    | None => Some exhausted
    | Some (values, slots', na, it') =>
      option_map (yield values) (longest_loop fillvalue fuel' slots' na it')
    end
  end.

(** [itertools.zip_longest] over the references, consumed to its end.
    [None]: out of fuel. *)
Definition zip_longest (fillvalue : A) (refs : nat) (shared : list A)
  : option (Run (list A)) :=
  match refs with
  | 0 => Some exhausted
  | S _ => longest_loop fillvalue (S (length shared)) (repeat true refs) refs shared
  end.

(** The slice [l[start:]]. *)
Definition slice_from (start : Z) (l : list A) : list A :=
  let len := Z.of_nat (length l) in
  let first := if (start <? 0)%Z then Z.max (start + len) 0 else Z.min start len in
  skipn (Z.to_nat first) l.

End Shared.

End Iteration.

(* ================================================================= *)
(** ** [xjfx.py]: [grouper] *)

Module Grouping.
Import Py Iteration.

(** [class GrouperIncomplete(enum.Enum)] *)
Module GrouperIncomplete.
Inductive t : Type := FILL | STRICT | IGNORE | REMAINDER.

Definition value (m : t) : Z :=
  match m with FILL => 1 | STRICT => 2 | IGNORE => 3 | REMAINDER => 4 end.

Definition eqb (a b : t) : bool := (value a =? value b)%Z.
End GrouperIncomplete.

(** What a call of [grouper] gives: it raises, or it returns an iterator,
    described by what consuming it to its end gives. *)
Inductive Grouped (A : Type) : Type :=
| CallRaises (e : Exception)
| Iterates (r : Run (list A)).
Arguments CallRaises {A} e.
Arguments Iterates {A} r.

(** [grouper(i, n, incomplete, fillvalue)]. [args = [iter(i)] * n] is a
    list of [n] references to one iterator, none when [n] is negative.
    [None]: out of fuel. *)
Definition grouper {A} (i : list A) (n : Z) (incomplete : GrouperIncomplete.t)
           (fillvalue : A) : option (Grouped A) :=
  let args := Z.to_nat n in
  if GrouperIncomplete.eqb incomplete GrouperIncomplete.FILL then
    option_map Iterates (zip_longest fillvalue args i)
  else if GrouperIncomplete.eqb incomplete GrouperIncomplete.STRICT then
    option_map Iterates (zip true args i)
  else if GrouperIncomplete.eqb incomplete GrouperIncomplete.IGNORE then
    option_map Iterates (zip false args i)
  else if GrouperIncomplete.eqb incomplete GrouperIncomplete.REMAINDER then
    if (n =? 0)%Z then Some (CallRaises ZeroDivisionError)
    else
      let remainder :=
        if negb (Z.of_nat (length i) mod n =? 0)%Z
        then mkRun [slice_from (- (Z.of_nat (length i) mod n)) i] None
        else exhausted in
      option_map (fun zipped => Iterates (chain zipped remainder))
                 (zip false args i)
  else Some (CallRaises ValueError).

End Grouping.

(* ================================================================= *)
(** ** [xjfx.py]: [get_answer] and [get_yes] *)

Module Prompting.
Import Py.

(** [a == b] on [str]. *)
Fixpoint str_eqb (a b : str) : bool :=
  match a, b with
  | [], [] => true
  | x :: a', y :: b' => (x =? y)%N && str_eqb a' b'
  | _, _ => false
  end.

Section Lower.

(** [str.lower()]. *)
Variable str_lower : str -> str.

(** [get_answer(prompt, accept, lower)]: [typed] is the line that
    [input()] returns; the result is the prompt shown and the value
    returned. *)
Definition get_answer (typed : str) (prompt : str) (accept : list str)
           (lower : bool) : str * bool :=
  let answer := str_lower typed in
  (prompt ++ lit " ",
   if existsb (fun a => if lower
                        then str_eqb (str_lower answer) (str_lower a)
                        else str_eqb answer a)
              accept
   then true
   else false).

(** [get_yes(prompt)] *)
Definition get_yes (typed : str) (prompt : str) : str * bool :=
  get_answer typed (prompt ++ lit " [Y|n]") [lit "yes"; lit "y"; lit ""] true.

End Lower.

(** Lower case on the letters [A] to [Z], other characters unchanged: what
    [str.lower()] does on ASCII text. *)
Definition ascii_lower (s : str) : str :=
  map (fun c => if ((65 <=? c) && (c <=? 90))%N then (c + 32)%N else c) s.

End Prompting.

(* ================================================================= *)
(** ** [xjfx.py]: [setup_logging] *)

Module Setup_logging.
Import Py Iteration.

Definition Fore_RED : str := Colorama.CSI ++ lit "31m".
Definition Fore_GREEN : str := Colorama.CSI ++ lit "32m".
Definition Fore_CYAN : str := Colorama.CSI ++ lit "36m".

(** A computation that returns or raises. *)
Inductive Try (T : Type) : Type :=
| Value (v : T)
| Raises (e : Exception).
Arguments Value {T} v.
Arguments Raises {T} e.

(** [d[key]] on a dictionary with string keys. *)
Fixpoint getitem (d : list (str * str)) (key : str) : Try str :=
  match d with
  | [] => Raises (KeyError key)
  | (k, v) :: rest => if Prompting.str_eqb k key then Value v else getitem rest key
  end.

(** The format specification [{s:width}] on a string: left-justified in
    [width] columns, never cut. *)
Definition ljust (width : nat) (s : str) : str :=
  s ++ repeat 32%N (width - length s).

(** [logging.getLevelName(level)] when no level name has been added. *)
Definition getLevelName (level : Z) : str :=
  if (level =? 50)%Z then lit "CRITICAL"
  else if (level =? 40)%Z then lit "ERROR"
  else if (level =? 30)%Z then lit "WARNING"
  else if (level =? 20)%Z then lit "INFO"
  else if (level =? 10)%Z then lit "DEBUG"
  else if (level =? 0)%Z then lit "NOTSET"
  else lit "Level " ++ repr_int level.

(** [ColorLogRecord.colors] *)
Definition colors_lvls : list (str * str) :=
  [(lit "CRITICAL", Fore_RED ++ Colorama.Style_BRIGHT);
   (lit "ERROR", Fore_RED ++ Colorama.Style_BRIGHT);
   (lit "WARNING", Colorama.Fore_YELLOW ++ Colorama.Style_BRIGHT);
   (lit "INFO", Fore_GREEN ++ Colorama.Style_BRIGHT);
   (lit "DEBUG", Fore_CYAN ++ Colorama.Style_BRIGHT);
   (lit "NOTSET", Colorama.Fore_WHITE ++ Colorama.Style_BRIGHT)].

Definition colors_msgs : list (str * str) :=
  [(lit "CRITICAL", Fore_RED ++ Colorama.Style_BRIGHT);
   (lit "ERROR", Fore_RED);
   (lit "WARNING", Colorama.Fore_YELLOW);
   (lit "INFO", Fore_GREEN);
   (lit "DEBUG", Fore_CYAN);
   (lit "NOTSET", Colorama.Fore_WHITE)].

Definition colors_name : str := Fore_GREEN ++ Colorama.Style_BRIGHT.
Definition colors_proc : str := Colorama.Fore_BLUE ++ Colorama.Style_BRIGHT.
Definition colors_reset : str := Colorama.Style_RESET_ALL.

(** The attributes [ColorLogRecord.__init__] adds to a record. *)
Record ColorLogRecord : Type := mkColorLogRecord {
  colorname : str;
  colorlevel : str;
  colormsg : str
}.

(** [ColorLogRecord.__init__], after [super().__init__]: [name] and
    [levelname] are the attributes of the record and [message] is what
    [self.getMessage()] returns. *)
Definition ColorLogRecord_init (name levelname message : str)
  : Try ColorLogRecord :=
  let colorname :=
    colors_name ++ lit "[" ++ ljust 17 name ++ lit "]" ++ colors_reset in
  match getitem colors_lvls levelname with
  | Raises e => Raises e
  | Value lvl =>
    let colorlevel :=
      lvl ++ lit "[" ++ ljust 8 levelname ++ lit "]" ++ colors_reset in
    match getitem colors_msgs levelname with
    | Raises e => Raises e
    | Value col =>
      let colormsg := col ++ lit " " ++ message ++ colors_reset in
      Value (mkColorLogRecord colorname colorlevel colormsg)
    end
  end.

(** The line for a record under the format
    ["%(colorlevel)s%(colormsg)s"] that [setup_logging] installs. *)
Definition format_record (r : ColorLogRecord) : str :=
  colorlevel r ++ colormsg r.

(** The names of the levels of [logging]. *)
Definition standard_levelnames : list str :=
  [lit "CRITICAL"; lit "ERROR"; lit "WARNING"; lit "INFO"; lit "DEBUG";
   lit "NOTSET"].

End Setup_logging.

(* ================================================================= *)
(** ** [xjfx.py]: [thr_exec] *)

Module Threads.
Import Py Logging Iteration.

(** How the call of [func] for one task ends: it returns, it raises an
    [Exception] whose text is [text], or it raises an exception that is
    not an [Exception] (such as [KeyboardInterrupt]). *)
Inductive TaskOutcome : Type :=
| Succeeds
| Fails (text : str)
| Aborts.

(** The record [LOGGER.error] gets for a failed task. *)
Definition task_error_record (text : str) : LogRecord :=
  mkRecord ERROR (PyStr (lit "Error executing task: " ++ text)) [].

(** The [for] loop over [as_completed]: the futures come in the order in
    which the tasks complete; [future.result()] raises what the task
    raised, and only an [Exception] is caught and logged. *)
Fixpoint collect (completed : list TaskOutcome)
  : list LogRecord * option Exception :=
  match completed with
  | [] => ([], None)
  | Succeeds :: rest => collect rest
  | Fails text :: rest =>
    let (records, e) := collect rest in (task_error_record text :: records, e)
  | Aborts :: rest => ([], Some BaseException)
  end.

(** Three sample tasks numbered from 1: the second raises, the others
    return. *)
Definition second_fails (n : nat) : TaskOutcome :=
  match n with
  | 2 => Fails (lit "boom")
  | _ => Succeeds
  end.

(** [thr_exec(func, args, max_workers)]. [completed] is the order in which
    the tasks complete, a rearrangement of [args];
    [ThreadPoolExecutor] refuses a [max_workers] that is not positive. The
    result is what was logged and the exception that left the call, if
    any. *)
Definition thr_exec {T} (func : T -> TaskOutcome) (args : list T)
           (max_workers : option Z) (completed : list T)
  : list LogRecord * option Exception :=
  match max_workers with
  | Some w =>
    if (w <=? 0)%Z then ([], Some ValueError)
    else collect (map func completed)
  | None => collect (map func completed)
  end.

End Threads.

(* ================================================================= *)
(** ** Python facts *)

Section PythonFacts.
Import Py.

Lemma iter_lines_concat (s : bytes) : concat (iter_lines s) = s.
Proof.
  induction s as [|b t IH]; simpl; [reflexivity|].
  destruct (Byte.eqb b newline).
  - simpl. now rewrite IH.
  - destruct (iter_lines t) as [|l ls]; simpl in *.
    + now subst t.
    + now rewrite <- IH.
Qed.

Lemma iter_lines_nonempty (s : bytes) :
  Forall (fun l => l <> []) (iter_lines s).
Proof.
  induction s as [|b t IH]; simpl; [constructor|].
  destruct (Byte.eqb b newline).
  - constructor; [discriminate | exact IH].
  - destruct (iter_lines t) as [|l ls].
    + constructor; [discriminate | constructor].
    + inversion IH; subst. constructor; [discriminate | assumption].
Qed.

(** A fragment without a newline is one line. *)
Lemma iter_lines_fragment (l : bytes) :
  l <> [] -> forallb (fun b => negb (Byte.eqb b newline)) l = true ->
  iter_lines l = [l].
Proof.
  induction l as [|b t IH]; intros Hne Hall; [congruence|].
  simpl in *. apply andb_prop in Hall as [Hb Ht].
  apply negb_true_iff in Hb. rewrite Hb.
  destruct t as [|b' t'].
  - reflexivity.
  - rewrite IH; [reflexivity | discriminate | exact Ht].
Qed.

(** A newline ends a line, and the line keeps it. *)
Lemma iter_lines_terminated (l rest : bytes) :
  forallb (fun b => negb (Byte.eqb b newline)) l = true ->
  iter_lines (l ++ newline :: rest) = (l ++ [newline]) :: iter_lines rest.
Proof.
  induction l as [|b t IH]; intros Hall.
  - reflexivity.
  - simpl in *. apply andb_prop in Hall as [Hb Ht].
    apply negb_true_iff in Hb. rewrite Hb.
    now rewrite (IH Ht).
Qed.

Lemma lstrip_spec (s : str) :
  exists lead, s = lead ++ lstrip s
               /\ forallb isspace lead = true
               /\ Facts.starts_clean (lstrip s).
Proof.
  induction s as [|c t (lead & E & Hl & Hc)]; simpl.
  - exists []. repeat split.
  - destruct (isspace c) eqn:Hsp.
    + exists (c :: lead). simpl. rewrite Hsp, Hl. repeat split; trivial.
      now rewrite <- E.
    + exists []. simpl. repeat split; trivial.
Qed.

Lemma rstrip_spec (s : str) :
  exists trail, s = rstrip s ++ trail
                /\ forallb isspace trail = true
                /\ Facts.ends_clean (rstrip s).
Proof.
  unfold rstrip, Facts.ends_clean.
  destruct (lstrip_spec (rev s)) as (lead & E & Hl & Hc).
  exists (rev lead). repeat split.
  - rewrite <- rev_app_distr, <- E. now rewrite rev_involutive.
  - rewrite forallb_forall in *. intros x Hx. apply Hl.
    now apply in_rev.
  - now rewrite rev_involutive.
Qed.

(** [strip] cuts a run of whitespace off each end and nothing else. *)
Lemma strip_spec (s : str) :
  exists lead trail,
    s = lead ++ strip s ++ trail
    /\ forallb isspace lead = true
    /\ forallb isspace trail = true
    /\ Facts.starts_clean (strip s)
    /\ Facts.ends_clean (strip s).
Proof.
  unfold strip.
  destruct (lstrip_spec s) as (lead & E & Hl & Hc).
  destruct (rstrip_spec (lstrip s)) as (trail & E' & Ht & Hc').
  exists lead, trail. repeat split; trivial.
  - now rewrite <- E'.
  - destruct (rstrip (lstrip s)) as [|c r] eqn:Er; simpl; [trivial|].
    rewrite E' in Hc. exact Hc.
Qed.

End PythonFacts.

(* ================================================================= *)
(** ** The line drains *)

Section Drains.
Import Py Logging Effect Xjfx Facts.

(** Each classifier binds [fore_color]: formatting a line never raises,
    and the record logged for it is [output_record]. *)
Lemma fmt_proc_output_spec (c : ProcStreamClassifier.t) (line : str) :
  bind (_fmt_proc_output c line) LOGGER_debug
  = ([output_record c line], Return tt).
Proof. now destruct c. Qed.

Lemma bind_ret_l {A B} (a : A) (k : A -> IO B) : bind (ret a) k = k a.
Proof. unfold bind, ret. now destruct (k a). Qed.

Lemma bind_ext {A B} (m : IO A) (k k' : A -> IO B) :
  (forall a, k a = k' a) -> bind m k = bind m k'.
Proof.
  intros H. destruct m as [l [a|e]]; simpl; [now rewrite H | reflexivity].
Qed.

Lemma bind_assoc {A B C} (m : IO A) (k : A -> IO B) (h : B -> IO C) :
  bind (bind m k) h = bind m (fun a => bind (k a) h).
Proof.
  destruct m as [l [a|e]]; simpl; [|reflexivity].
  destruct (k a) as [l' [b|e]]; simpl.
  - destruct (h b) as [l'' r]. now rewrite app_assoc.
  - reflexivity.
Qed.

(** What the loop of [_iterate_proc_output] logs and returns. *)
Lemma for_raw_line_spec (lines : list bytes) (c : ProcStreamClassifier.t)
      (acc : bytes) :
  for_raw_line lines c acc =
  (map (output_record c) (decoded_prefix lines),
   if all_decode lines then Return (acc ++ concat lines)
   else Raise UnicodeDecodeError).
Proof.
  revert acc. induction lines as [|raw rest IH]; intros acc.
  - simpl. now rewrite app_nil_r.
  - cbn [for_raw_line decoded_prefix all_decode forallb concat].
    unfold decode, decodes. destruct (utf8_decode raw) as [line|].
    + rewrite bind_ret_l.
      change (bind (_fmt_proc_output c line) ?k)
        with (bind (_fmt_proc_output c line)
                   (fun call => bind (LOGGER_debug call)
                                     (fun _ => for_raw_line rest c (acc ++ raw)))).
      rewrite <- (bind_assoc (_fmt_proc_output c line) LOGGER_debug),
        fmt_proc_output_spec, IH.
      cbn [bind map andb]. now rewrite <- app_assoc.
    + reflexivity.
Qed.

(** On a stream whose lines are all UTF-8 the drain returns the stream,
    byte for byte, and logs one record per line. *)
Lemma iterate_proc_output_decodable (s : bytes) (c : ProcStreamClassifier.t) :
  all_decode (iter_lines s) = true ->
  _iterate_proc_output (Some s) c =
  (map (output_record c) (decoded_prefix (iter_lines s)), Return s).
Proof.
  intros H. unfold _iterate_proc_output.
  now rewrite for_raw_line_spec, H, iter_lines_concat.
Qed.

(** A line that is not UTF-8 makes the drain raise. *)
Lemma iterate_proc_output_undecodable (s : bytes) (c : ProcStreamClassifier.t) :
  all_decode (iter_lines s) = false ->
  outcome (_iterate_proc_output (Some s) c) = Raise UnicodeDecodeError.
Proof.
  intros H. unfold _iterate_proc_output.
  now rewrite for_raw_line_spec, H.
Qed.

Lemma iterate_proc_output_none (c : ProcStreamClassifier.t) :
  _iterate_proc_output None c = ([], Raise TypeError).
Proof. reflexivity. Qed.

(** When the drain returns, every line was decoded. *)
Lemma iterate_proc_output_returns (s : bytes) (c : ProcStreamClassifier.t)
      (r : bytes) :
  outcome (_iterate_proc_output (Some s) c) = Return r ->
  all_decode (iter_lines s) = true /\ r = s.
Proof.
  unfold _iterate_proc_output. rewrite for_raw_line_spec. simpl.
  destruct (all_decode (iter_lines s)); [|discriminate].
  rewrite iter_lines_concat. intros [= <-]. now split.
Qed.

Lemma decoded_prefix_all (lines : list bytes) :
  all_decode lines = true ->
  map Some (decoded_prefix lines) = map utf8_decode lines.
Proof.
  induction lines as [|raw rest IH]; simpl; [reflexivity|].
  unfold decodes. destruct (utf8_decode raw); simpl; [|discriminate].
  intros H. now rewrite IH.
Qed.

(** The loop of the coroutine with its accumulator unbound: it ends
    without a value, or raises. *)
Lemma async_for_raw_line_unbound (lines : list bytes)
      (c : ProcStreamClassifier.t) :
  outcome (async_for_raw_line lines c None) = Return None
  \/ exists e, outcome (async_for_raw_line lines c None) = Raise e.
Proof.
  destruct lines as [|raw rest]; simpl.
  - now left.
  - right. unfold decode. destruct (utf8_decode raw); [|simpl; eauto].
    destruct c; simpl; eauto.
Qed.

End Drains.

Section DrainClaims.
Import Py Logging Effect Xjfx Facts.

Lemma record_text_output_record (c : ProcStreamClassifier.t) (line : str) :
  record_text (output_record c line) = strip line.
Proof. reflexivity. Qed.

Lemma record_classifier_output_record (c : ProcStreamClassifier.t) (line : str) :
  record_classifier (output_record c line) = ProcStreamClassifier.name c.
Proof. reflexivity. Qed.

(** C4. The blocking drain and the coroutine drain do not return the same
    buffer: for every stream, empty or not, and every classifier the
    coroutine [_iterate_proc_output_async] raises and returns nothing,
    because its accumulator is annotated but never bound. On the empty
    stream the blocking drain returns the empty buffer and the coroutine
    raises [UnboundLocalError]. *)
Theorem iterate_proc_output_async_never_returns :
  (forall (stream : option bytes) (c : ProcStreamClassifier.t),
      exists e, outcome (_iterate_proc_output_async stream c) = Raise e)
  /\ outcome (_iterate_proc_output (Some []) ProcStreamClassifier.STDOUT)
     = Return []
  /\ outcome (_iterate_proc_output_async (Some []) ProcStreamClassifier.STDOUT)
     = Raise UnboundLocalError.
Proof.
  split; [|split; reflexivity].
  intros [s|] c; [|exists TypeError; reflexivity].
  unfold _iterate_proc_output_async.
  destruct (async_for_raw_line (iter_lines s) c None) as [l [[a|]|e]] eqn:E;
    simpl; eauto.
  destruct (async_for_raw_line_unbound (iter_lines s) c) as [H|[e H]];
    rewrite E in H; simpl in H; congruence.
Qed.

(** C6. The blocking drain does not return the bytes of every stream: the
    one-byte stream [0xff] is not UTF-8, [raw_line.decode()] raises
    [UnicodeDecodeError] inside the drain, and [exec_cmd] raises with it
    even when the caller asked for raw bytes ([decode_output=False]). *)
Theorem iterate_proc_output_undecodable_stream_raises :
  _iterate_proc_output (Some [xff]) ProcStreamClassifier.STDOUT
  = ([], Raise UnicodeDecodeError)
  /\ outcome (exec_cmd (Subprocess.LaunchStarts
                          (Subprocess.mkChild None [xff] [] 0))
                       INFO [lit "cat"; lit "blob"] None
                       (Some PIPE) (Some PIPE) None false false)
     = Raise UnicodeDecodeError.
Proof. split; reflexivity. Qed.

(** The part of C6 the code keeps: on a stream whose lines are UTF-8 the
    drain returns the concatenation of the lines, which is the stream
    itself; the empty stream gives the empty buffer. *)
Lemma iterate_proc_output_returns_stream (s : bytes)
      (c : ProcStreamClassifier.t) :
  all_decode (iter_lines s) = true ->
  outcome (_iterate_proc_output (Some s) c) = Return (concat (iter_lines s))
  /\ concat (iter_lines s) = s.
Proof.
  intros H. rewrite (iterate_proc_output_decodable s c H).
  now rewrite iter_lines_concat.
Qed.

Lemma iterate_proc_output_empty (c : ProcStreamClassifier.t) :
  _iterate_proc_output (Some []) c = ([], Return []).
Proof. reflexivity. Qed.

(** C7, as stated, fails: the line [" a\n"] is logged as ["a"], although
    removing only the trailing whitespace would leave [" a"]. *)
Lemma fmt_proc_output_strips_leading_whitespace :
  map record_text
      (logged (_iterate_proc_output (Some [x20; x61; x0a])
                                    ProcStreamClassifier.STDOUT))
  = [lit "a"]
  /\ utf8_decode [x20; x61; x0a] = Some (lit " a" ++ [10%N])
  /\ rstrip (lit " a" ++ [10%N]) = lit " a"
  /\ lit "a" <> lit " a".
Proof. repeat split; try reflexivity. discriminate. Qed.

(** C7, amended. For every stream and classifier, the text handed to the
    logger for each drained line is the decoded line with the whitespace
    at both of its ends removed ([str.strip]): the line is that text
    between a run of whitespace and another, and the text neither starts
    nor ends with whitespace. The buffer the drain returns is the
    concatenation of the lines as they were read. *)
Theorem iterate_proc_output_logs_stripped_keeps_verbatim
        (s : bytes) (c : ProcStreamClassifier.t) :
  map record_text (logged (_iterate_proc_output (Some s) c))
  = map strip (decoded_prefix (iter_lines s))
  /\ Forall (fun line =>
               exists lead trail,
                 line = lead ++ strip line ++ trail
                 /\ forallb isspace lead = true
                 /\ forallb isspace trail = true
                 /\ starts_clean (strip line)
                 /\ ends_clean (strip line))
            (decoded_prefix (iter_lines s))
  /\ (forall r, outcome (_iterate_proc_output (Some s) c) = Return r ->
                r = concat (iter_lines s)
                /\ map Some (decoded_prefix (iter_lines s))
                   = map utf8_decode (iter_lines s)).
Proof.
  split; [|split].
  - unfold _iterate_proc_output. rewrite for_raw_line_spec. simpl.
    rewrite map_map. apply map_ext. intros line.
    apply record_text_output_record.
  - apply Forall_forall. intros line _. apply strip_spec.
  - intros r H. apply iterate_proc_output_returns in H as [Hd ->].
    split; [now rewrite iter_lines_concat | now apply decoded_prefix_all].
Qed.

Lemma iterate_proc_output_logs_stripped_keeps_verbatim_witness :
  outcome (_iterate_proc_output (Some [x20; x61; x0a; x62])
                                ProcStreamClassifier.STDOUT)
  = Return [x20; x61; x0a; x62]
  /\ [x20; x61; x0a; x62] = concat (iter_lines [x20; x61; x0a; x62])
  /\ map Some (decoded_prefix (iter_lines [x20; x61; x0a; x62]))
     = map utf8_decode (iter_lines [x20; x61; x0a; x62]).
Proof.
  split; [reflexivity|].
  apply (proj2 (proj2 (iterate_proc_output_logs_stripped_keeps_verbatim
                         [x20; x61; x0a; x62]
                         ProcStreamClassifier.STDOUT))).
  reflexivity.
Defined.

End DrainClaims.

(* ================================================================= *)
(** ** The result reporter *)

Section Reporter.
Import Py Logging Effect Xjfx Facts.
Local Open Scope Z_scope.

Lemma logged_bind {A B} (m : IO A) (k : A -> IO B) :
  logged (bind m k)
  = logged m ++ match outcome m with
                | Return a => logged (k a)
                | Raise _ => []
                end.
Proof.
  destruct m as [l [a|e]]; simpl.
  - now destruct (k a).
  - now rewrite app_nil_r.
Qed.

Lemma outcome_bind {A B} (m : IO A) (k : A -> IO B) :
  outcome (bind m k)
  = match outcome m with
    | Return a => outcome (k a)
    | Raise e => Raise e
    end.
Proof.
  destruct m as [l [a|e]]; simpl; [now destruct (k a) | reflexivity].
Qed.

(** Reading a view logs nothing. *)
Lemma logged_ProcData_stdout (pd : ProcData) : logged (ProcData_stdout pd) = [].
Proof.
  unfold ProcData_stdout, decode.
  destruct (decode_output pd); [|reflexivity].
  now destruct (utf8_decode (_stdout pd)).
Qed.

Lemma logged_ProcData_stderr (pd : ProcData) : logged (ProcData_stderr pd) = [].
Proof.
  unfold ProcData_stderr, decode.
  destruct (decode_output pd); [|reflexivity].
  now destruct (utf8_decode (_stderr pd)).
Qed.

Lemma display_proc_result_unfold (lvl : Z) (args : list str) (ign : bool)
      (pd : ProcData) :
  _display_proc_result lvl args ign pd =
  if negb ign && negb (retcode pd =? 0)
  then bind (LOGGER_error (PyStr (returned_message args (retcode pd))))
            (fun _ => if lvl >? DEBUG then aggregates pd else ret tt)
  else ret tt.
Proof. reflexivity. Qed.

Lemma logged_aggregates_views (pd : ProcData) (out err : PyVal) :
  outcome (ProcData_stdout pd) = Return out ->
  outcome (ProcData_stderr pd) = Return err ->
  aggregates pd = (aggregate_if_any out ++ aggregate_if_any err, Return tt).
Proof.
  intros Ho He. unfold aggregates, aggregate_if_any.
  destruct (ProcData_stdout pd) as [lo ro] eqn:Eo.
  destruct (ProcData_stderr pd) as [le re] eqn:Ee.
  pose proof (logged_ProcData_stdout pd) as Lo.
  pose proof (logged_ProcData_stderr pd) as Le.
  rewrite Eo in Lo. rewrite Ee in Le. simpl in *. subst.
  destruct (truthy out), (truthy err); reflexivity.
Qed.

(** Every record among the aggregates is an error-level record carrying
    one of the two views. *)
Lemma logged_aggregates_shape (pd : ProcData) :
  Forall (fun r => exists v,
              (outcome (ProcData_stdout pd) = Return v
               \/ outcome (ProcData_stderr pd) = Return v)
              /\ truthy v = true
              /\ r = aggregate_record v)
         (logged (aggregates pd)).
Proof.
  unfold aggregates.
  destruct (ProcData_stdout pd) as [lo ro] eqn:Eo.
  destruct (ProcData_stderr pd) as [le re] eqn:Ee.
  pose proof (logged_ProcData_stdout pd) as Lo.
  pose proof (logged_ProcData_stderr pd) as Le.
  rewrite Eo in Lo. rewrite Ee in Le. simpl in *. subst.
  destruct ro as [out|e]; simpl; [|constructor].
  destruct re as [err|e]; simpl;
    destruct (truthy out) eqn:To; simpl;
      try destruct (truthy err) eqn:Te; simpl;
        repeat constructor; eauto.
Qed.

Lemma aggregates_empty_buffers (pd : ProcData) :
  _stdout pd = [] -> _stderr pd = [] -> logged (aggregates pd) = [].
Proof.
  intros Ho He. unfold aggregates, ProcData_stdout, ProcData_stderr.
  rewrite Ho, He. now destruct (decode_output pd).
Qed.

(** The reporter logs at error level only. *)
Lemma display_proc_result_no_debug (lvl : Z) (args : list str) (ign : bool)
      (pd : ProcData) :
  filter is_debug (logged (_display_proc_result lvl args ign pd)) = [].
Proof.
  rewrite display_proc_result_unfold.
  destruct (negb ign && negb (retcode pd =? 0)); [|reflexivity].
  rewrite logged_bind. simpl.
  destruct (lvl >? DEBUG); [|reflexivity].
  pose proof (logged_aggregates_shape pd) as H.
  induction H as [|r l (v & _ & _ & ->) _ IH]; simpl; [reflexivity | exact IH].
Qed.

End Reporter.

Section ReporterClaims.
Import Py Logging Effect Xjfx Facts.
Local Open Scope Z_scope.

(** C8, as stated, fails: the error-level record that names the command
    and the exit code is not the only one. With a non-zero exit and the
    level at [INFO], a result whose two buffers are not empty makes the
    reporter log three error-level records, the report and one for each
    buffer; and a result whose standard output is the text of the report
    makes it log two error-level records that both name the command and
    the exit code. *)
Lemma display_proc_result_reports_more_than_once :
  let noisy := mkProcData true [x6f; x0a] [x65; x0a] 7 in
  let mimic :=
    mkProcData true
               [x60; x66; x61; x6c; x73; x65; x60; x20; x72; x65; x74; x75;
                x72; x6e; x65; x64; x3a; x20; x31]
               [] 1 in
  logged (_display_proc_result INFO [lit "make"] false noisy)
  = [returned_record [lit "make"] 7;
     aggregate_record (PyStr [111%N; 10%N]);
     aggregate_record (PyStr [101%N; 10%N])]
  /\ length (filter is_error
                    (logged (_display_proc_result INFO [lit "make"] false
                                                  noisy)))
     = 3%nat
  /\ logged (_display_proc_result INFO [lit "false"] false mimic)
     = [returned_record [lit "false"] 1; returned_record [lit "false"] 1].
Proof. repeat split. Qed.

(** C8, amended. When [ignore_retcode] is set or the exit code is 0 the
    reporter logs nothing, so no error-level record. Otherwise its first
    record is an error-level record that names the command, quoted by
    [shlex.join], and the exit code. It is the only record when the level
    is [DEBUG] or finer or when both buffers are empty; at a coarser level
    each record after it carries a non-empty aggregated buffer (C9), also
    at error level, so that the number of error-level records is one more
    than the number of buffers logged. *)
Theorem display_proc_result_reports_once
        (lvl : Z) (args : list str) (ignore_retcode : bool) (pd : ProcData) :
  (ignore_retcode = true \/ retcode pd = 0 ->
   logged (_display_proc_result lvl args ignore_retcode pd) = [])
  /\ (ignore_retcode = false -> retcode pd <> 0 ->
      exists rest,
        logged (_display_proc_result lvl args ignore_retcode pd)
        = mkRecord ERROR
                   (PyStr (lit "`" ++ Shlex.join args ++ lit "` returned: "
                           ++ repr_int (retcode pd)))
                   []
          :: rest
        /\ Forall (fun r => exists v,
                       (outcome (ProcData_stdout pd) = Return v
                        \/ outcome (ProcData_stderr pd) = Return v)
                       /\ truthy v = true
                       /\ r = aggregate_record v)
                  rest
        /\ length (filter is_error
                          (logged (_display_proc_result lvl args ignore_retcode
                                                        pd)))
           = S (length rest)
        /\ (lvl <= DEBUG -> rest = [])
        /\ (_stdout pd = [] -> _stderr pd = [] -> rest = [])).
Proof.
  rewrite display_proc_result_unfold. split.
  - intros [-> | ->]; [reflexivity|].
    now rewrite andb_false_r.
  - intros -> Hrc. apply Z.eqb_neq in Hrc. rewrite Hrc. cbn [negb andb].
    rewrite logged_bind. simpl.
    destruct (lvl >? DEBUG) eqn:Hl.
    + exists (logged (aggregates pd)).
      pose proof (logged_aggregates_shape pd) as Hshape.
      split; [reflexivity|]. split; [exact Hshape|]. split; [|split].
      * f_equal. f_equal. apply forallb_filter_id, forallb_forall.
        intros r Hr. rewrite Forall_forall in Hshape.
        now destruct (Hshape r Hr) as (v & _ & _ & ->).
      * intros Hle. apply Z.gtb_lt in Hl. lia.
      * apply aggregates_empty_buffers.
    + exists []. repeat split; trivial.
Qed.

Lemma display_proc_result_reports_once_witness :
  logged (_display_proc_result INFO [lit "make"] true
                               (mkProcData true [x6f; x0a] [x65; x0a] 7)) = []
  /\ exists rest,
      logged (_display_proc_result INFO [lit "make"] false
                                   (mkProcData true [x6f; x0a] [x65; x0a] 7))
      = mkRecord ERROR
                 (PyStr (lit "`" ++ Shlex.join [lit "make"]
                         ++ lit "` returned: " ++ repr_int 7))
                 []
        :: rest
      /\ length (filter is_error
                        (logged (_display_proc_result
                                   INFO [lit "make"] false
                                   (mkProcData true [x6f; x0a] [x65; x0a] 7))))
         = S (length rest)
      /\ length rest = 2%nat.
Proof.
  split.
  - apply (proj1 (display_proc_result_reports_once
                    INFO [lit "make"] true
                    (mkProcData true [x6f; x0a] [x65; x0a] 7))).
    left. reflexivity.
  - destruct (proj2 (display_proc_result_reports_once
                       INFO [lit "make"] false
                       (mkProcData true [x6f; x0a] [x65; x0a] 7))
                    eq_refl)
      as (rest & E & _ & Hlen & _).
    + simpl. discriminate.
    + exists rest. split; [exact E|]. split; [exact Hlen|].
      apply (f_equal (@length LogRecord)) in E.
      change (3%nat = S (length rest)) in E.
      now injection E as <-.
Defined.

(** C9, as stated, fails: with a non-zero exit, the level at [INFO], an
    empty standard output and a non-empty standard error, the reporter
    logs the report and the standard error and no record for the standard
    output. *)
Lemma display_proc_result_skips_empty_stdout :
  let pd := mkProcData true [] [x65; x0a] 1 in
  outcome (ProcData_stdout pd) = Return (PyStr [])
  /\ logged (_display_proc_result INFO [lit "false"] false pd)
     = [returned_record [lit "false"] 1;
        aggregate_record (PyStr [101%N; 10%N])]
  /\ ~ In (aggregate_record (PyStr []))
          (logged (_display_proc_result INFO [lit "false"] false pd)).
Proof.
  repeat split. simpl. intros [H|[H|[]]]; discriminate.
Qed.

(** C9, amended. When the reporter reports a non-zero exit and the views
    of both buffers can be read, then at a level coarser than [DEBUG] it
    logs, after the report, the whole standard output in one record if it
    is not empty and then the whole standard error in one record if it is
    not empty; at [DEBUG] or finer it logs neither. *)
Theorem display_proc_result_logs_aggregates
        (lvl : Z) (args : list str) (pd : ProcData) (out err : PyVal) :
  retcode pd <> 0 ->
  outcome (ProcData_stdout pd) = Return out ->
  outcome (ProcData_stderr pd) = Return err ->
  (DEBUG < lvl ->
   logged (_display_proc_result lvl args false pd)
   = returned_record args (retcode pd)
     :: (if truthy out then [mkRecord ERROR out []] else [])
     ++ (if truthy err then [mkRecord ERROR err []] else []))
  /\ (lvl <= DEBUG ->
      logged (_display_proc_result lvl args false pd)
      = [returned_record args (retcode pd)]).
Proof.
  intros Hrc Ho He. rewrite display_proc_result_unfold.
  apply Z.eqb_neq in Hrc. rewrite Hrc. cbn [negb andb].
  rewrite logged_bind. simpl. split; intros Hl.
  - apply Z.gtb_lt in Hl. rewrite Hl.
    now rewrite (logged_aggregates_views pd Ho He).
  - destruct (lvl >? DEBUG) eqn:Hg; [|reflexivity].
    apply Z.gtb_lt in Hg. lia.
Qed.

Lemma display_proc_result_logs_aggregates_witness :
  retcode (mkProcData true [x6f; x0a] [x65; x0a] 7) <> 0
  /\ outcome (ProcData_stdout (mkProcData true [x6f; x0a] [x65; x0a] 7))
     = Return (PyStr [111%N; 10%N])
  /\ outcome (ProcData_stderr (mkProcData true [x6f; x0a] [x65; x0a] 7))
     = Return (PyStr [101%N; 10%N])
  /\ DEBUG < INFO
  /\ logged (_display_proc_result INFO [lit "make"] false
                                  (mkProcData true [x6f; x0a] [x65; x0a] 7))
     = [returned_record [lit "make"] 7;
        mkRecord ERROR (PyStr [111%N; 10%N]) [];
        mkRecord ERROR (PyStr [101%N; 10%N]) []].
Proof.
  split; [simpl; discriminate|]. split; [reflexivity|].
  split; [reflexivity|]. split; [reflexivity|].
  apply (proj1 (@display_proc_result_logs_aggregates
                  INFO [lit "make"]
                  (mkProcData true [x6f; x0a] [x65; x0a] 7)
                  (PyStr [111%N; 10%N]) (PyStr [101%N; 10%N])
                  ltac:(simpl; discriminate) eq_refl eq_refl)).
  reflexivity.
Defined.

End ReporterClaims.

(* ================================================================= *)
(** ** The blocking launcher *)

Section Launcher.
Import Py Logging Effect Xjfx Facts.
Local Open Scope Z_scope.

Lemma exec_cmd_launch_fails (e : PyError) (lvl : Z) (args : list str)
      (input : option bytes) (stdout stderr : option Z) (cwd : option str)
      (ign dec : bool) :
  exec_cmd (Subprocess.LaunchFails e) lvl args input stdout stderr cwd ign dec
  = ([executing_record args], Raise e).
Proof. reflexivity. Qed.

(** [exec_cmd] on a started child is the sequence of its phases. *)
Lemma exec_cmd_phases (c : Subprocess.Child) (lvl : Z) (args : list str)
      (input : option bytes) (stdout stderr : option Z) (cwd : option str)
      (ign dec : bool) :
  exec_cmd (Subprocess.LaunchStarts c) lvl args input stdout stderr cwd ign dec
  = bind (LOGGER_debug (_fmt_proc_cmd args)) (fun _ =>
    bind (write_phase c input) (fun _ =>
    bind (stdout_phase c stdout stderr (ProcData_init dec)) (fun pd1 =>
    bind (stderr_phase c stderr pd1) (fun pd2 =>
    report_phase c lvl args ign pd2)))).
Proof.
  unfold exec_cmd. apply bind_ext. intros _.
  unfold Subprocess.Popen_init. now rewrite bind_ret_l.
Qed.

End Launcher.

Section LauncherPhases.
Import Py Logging Effect Xjfx Facts.
Local Open Scope Z_scope.

Lemma logged_write_phase (c : Subprocess.Child) (input : option bytes) :
  logged (write_phase c input) = [].
Proof.
  unfold write_phase. destruct input; [|reflexivity].
  now destruct (Subprocess.write_error c).
Qed.

Lemma write_phase_ok (c : Subprocess.Child) (input : option bytes) :
  input = None \/ Subprocess.write_error c = None ->
  write_phase c input = ([], Return tt).
Proof.
  unfold write_phase. intros [-> | H]; [reflexivity|].
  rewrite H. now destruct input.
Qed.

Lemma stdout_phase_spec (c : Subprocess.Child) (stdout stderr : option Z)
      (pd : ProcData) :
  stdout_phase c stdout stderr pd =
  if truthy_int stdout then
    if eq_int stdout (Some PIPE) then
      (map (output_record (stdout_classifier stderr))
           (decoded_prefix (iter_lines (Subprocess.out_data c))),
       if all_decode (iter_lines (Subprocess.out_data c))
       then Return (ProcData_set_stdout pd (Subprocess.out_data c))
       else Raise UnicodeDecodeError)
    else ([], Raise TypeError)
  else ([], Return pd).
Proof.
  unfold stdout_phase. destruct (truthy_int stdout); [|reflexivity].
  destruct (eq_int stdout (Some PIPE)); [|reflexivity].
  unfold _iterate_proc_output. rewrite for_raw_line_spec, iter_lines_concat.
  destruct (all_decode _); simpl; [|reflexivity].
  now rewrite app_nil_r.
Qed.

Lemma stderr_phase_spec (c : Subprocess.Child) (stderr : option Z)
      (pd : ProcData) :
  stderr_phase c stderr pd =
  if truthy_int stderr && negb (eq_int stderr (Some STDOUT)) then
    if eq_int stderr (Some PIPE) then
      (map (output_record ProcStreamClassifier.STDERR)
           (decoded_prefix (iter_lines (Subprocess.err_data c))),
       if all_decode (iter_lines (Subprocess.err_data c))
       then Return (ProcData_set_stderr pd (Subprocess.err_data c))
       else Raise UnicodeDecodeError)
    else ([], Raise TypeError)
  else ([], Return pd).
Proof.
  unfold stderr_phase.
  destruct (truthy_int stderr && negb (eq_int stderr (Some STDOUT)));
    [|reflexivity].
  destruct (eq_int stderr (Some PIPE)); [|reflexivity].
  unfold _iterate_proc_output. rewrite for_raw_line_spec, iter_lines_concat.
  destruct (all_decode _); simpl; [|reflexivity].
  now rewrite app_nil_r.
Qed.

Lemma report_phase_no_debug (c : Subprocess.Child) (lvl : Z)
      (args : list str) (ign : bool) (pd : ProcData) :
  filter is_debug (logged (report_phase c lvl args ign pd)) = [].
Proof.
  unfold report_phase. rewrite logged_bind, filter_app.
  rewrite display_proc_result_no_debug.
  now destruct (outcome (_display_proc_result _ _ _ _)).
Qed.

(** What the reporter hands back is the record it was given. *)
Lemma report_phase_returns (c : Subprocess.Child) (lvl : Z)
      (args : list str) (ign : bool) (pd r : ProcData) :
  outcome (report_phase c lvl args ign pd) = Return r ->
  r = ProcData_set_retcode pd (Subprocess.exit_status c).
Proof.
  unfold report_phase. rewrite outcome_bind.
  destruct (outcome (_display_proc_result _ _ _ _)); simpl; congruence.
Qed.

(** The stderr phase leaves the standard output alone, and the stdout
    phase the standard error. *)
Lemma stderr_phase_merged (c : Subprocess.Child) (pd : ProcData) :
  stderr_phase c (Some STDOUT) pd = ([], Return pd).
Proof. reflexivity. Qed.

Lemma stdout_phase_returns (c : Subprocess.Child) (stdout stderr : option Z)
      (pd r : ProcData) :
  outcome (stdout_phase c stdout stderr pd) = Return r ->
  _stderr r = _stderr pd
  /\ (eq_int stdout (Some PIPE) = true ->
      _stdout r = Subprocess.out_data c
      /\ all_decode (iter_lines (Subprocess.out_data c)) = true).
Proof.
  rewrite stdout_phase_spec.
  destruct (truthy_int stdout) eqn:T.
  - destruct (eq_int stdout (Some PIPE)); simpl; [|discriminate].
    destruct (all_decode _); [|discriminate].
    intros [= <-]. split; [reflexivity | now split].
  - simpl. intros [= <-]. split; [reflexivity|].
    intros H. destruct stdout as [z|]; simpl in *; [|discriminate].
    apply Z.eqb_eq in H. subst z. discriminate.
Qed.

End LauncherPhases.

Section LauncherResult.
Import Py Logging Effect Xjfx Facts.
Local Open Scope Z_scope.

(** The records and the outcome of [exec_cmd] on a started child, phase by
    phase: the first phase that raises ends the call. *)
Lemma exec_cmd_started (c : Subprocess.Child) (lvl : Z) (args : list str)
      (input : option bytes) (stdout stderr : option Z) (cwd : option str)
      (ign dec : bool) :
  exec_cmd (Subprocess.LaunchStarts c) lvl args input stdout stderr cwd ign dec
  = match outcome (write_phase c input) with
    | Raise e => ([executing_record args], Raise e)
    | Return _ =>
      match stdout_phase c stdout stderr (ProcData_init dec) with
      | (l1, Raise e) => (executing_record args :: l1, Raise e)
      | (l1, Return pd1) =>
        match stderr_phase c stderr pd1 with
        | (l2, Raise e) => (executing_record args :: l1 ++ l2, Raise e)
        | (l2, Return pd2) =>
          (executing_record args :: l1 ++ l2
             ++ logged (report_phase c lvl args ign pd2),
           outcome (report_phase c lvl args ign pd2))
        end
      end
    end.
Proof.
  rewrite exec_cmd_phases.
  pose proof (logged_write_phase c input) as Hw.
  destruct (write_phase c input) as [lw [[]|e]]; simpl in Hw; subst lw;
    [|reflexivity].
  unfold LOGGER_debug, bind at 1. unfold bind at 1.
  destruct (stdout_phase c stdout stderr (ProcData_init dec))
    as [l1 [pd1|e]]; [|reflexivity].
  unfold bind at 1.
  destruct (stderr_phase c stderr pd1) as [l2 [pd2|e]]; [|reflexivity].
  unfold bind at 1.
  destruct (report_phase c lvl args ign pd2) as [l3 r]. reflexivity.
Qed.

Lemma filter_debug_output_records (c : ProcStreamClassifier.t)
      (lines : list str) :
  filter is_debug (map (output_record c) lines) = map (output_record c) lines.
Proof.
  apply forallb_filter_id, forallb_forall. intros r Hr.
  apply in_map_iff in Hr as (l & <- & _). reflexivity.
Qed.

End LauncherResult.

Section LauncherClaims.
Import Py Logging Effect Xjfx Facts.
Local Open Scope Z_scope.

(** C3. For every launch with [stderr=STDOUT], a returned [ProcData] has
    an empty standard-error buffer, and the debug records that follow the
    announcement of the command are the records of the drained lines, each
    with the classifier [OUTPUT]; when standard output is a pipe and the
    launcher returns, these are the lines of the returned buffer, one
    record per line. *)
Theorem exec_cmd_merged_stderr
        (os : Subprocess.Launch) (lvl : Z) (args : list str)
        (input : option bytes) (stdout : option Z) (cwd : option str)
        (ignore_retcode decode_output : bool) :
  (forall pd,
      outcome (exec_cmd os lvl args input stdout (Some STDOUT) cwd
                        ignore_retcode decode_output) = Return pd ->
      _stderr pd = [])
  /\ exists lines,
      filter is_debug
             (logged (exec_cmd os lvl args input stdout (Some STDOUT) cwd
                               ignore_retcode decode_output))
      = executing_record args
        :: map (output_record ProcStreamClassifier.OUTPUT) lines
      /\ Forall (fun r => record_classifier r = lit "OUTPUT")
                (map (output_record ProcStreamClassifier.OUTPUT) lines)
      /\ (forall pd,
             outcome (exec_cmd os lvl args input stdout (Some STDOUT) cwd
                               ignore_retcode decode_output) = Return pd ->
             stdout = Some PIPE ->
             map Some lines = map utf8_decode (iter_lines (_stdout pd))).
Proof.
  assert (Hcls : forall lines,
             Forall (fun r => record_classifier r = lit "OUTPUT")
                    (map (output_record ProcStreamClassifier.OUTPUT) lines)).
  { intros lines. apply Forall_forall. intros r Hr.
    apply in_map_iff in Hr as (l & <- & _). reflexivity. }
  assert (Hnone : forall e,
             (forall pd, outcome ([executing_record args], @Raise ProcData e)
                         = Return pd -> _stderr pd = [])
             /\ exists lines,
                 filter is_debug
                        (logged ([executing_record args], @Raise ProcData e))
                 = executing_record args
                   :: map (output_record ProcStreamClassifier.OUTPUT) lines
                 /\ Forall (fun r => record_classifier r = lit "OUTPUT")
                           (map (output_record ProcStreamClassifier.OUTPUT)
                                lines)
                 /\ (forall pd,
                        outcome ([executing_record args], @Raise ProcData e)
                        = Return pd ->
                        stdout = Some PIPE ->
                        map Some lines
                        = map utf8_decode (iter_lines (_stdout pd)))).
  { intros e. split; [discriminate|]. exists [].
    repeat split; [constructor | discriminate]. }
  destruct os as [e|c].
  { rewrite exec_cmd_launch_fails. apply Hnone. }
  rewrite exec_cmd_started.
  destruct (outcome (write_phase c input)) as [_|e]; [|apply Hnone].
  pose proof (stdout_phase_returns c stdout (Some STDOUT)
                                   (ProcData_init decode_output)) as R1.
  rewrite stdout_phase_spec in *.
  destruct (truthy_int stdout) eqn:T.
  - destruct (eq_int stdout (Some PIPE)) eqn:P; [|apply Hnone].
    destruct (all_decode (iter_lines (Subprocess.out_data c))) eqn:D.
    + rewrite stderr_phase_merged. split.
      * intros pd H. apply report_phase_returns in H. now subst pd.
      * exists (decoded_prefix (iter_lines (Subprocess.out_data c))).
        split; [|split; [apply Hcls|]].
        -- cbn [logged fst app].
           change (executing_record args :: ?l)
             with ([executing_record args] ++ l) at 1.
           rewrite !filter_app, report_phase_no_debug, app_nil_r.
           unfold stdout_classifier. simpl eq_int. cbv iota.
           now rewrite filter_debug_output_records.
        -- intros pd H _. apply report_phase_returns in H. subst pd.
           simpl. now apply decoded_prefix_all.
    + split; [discriminate|].
      exists (decoded_prefix (iter_lines (Subprocess.out_data c))).
      split; [|split; [apply Hcls | discriminate]].
      cbn [logged fst app].
      change (executing_record args :: ?l)
        with ([executing_record args] ++ l) at 1.
      rewrite filter_app. unfold stdout_classifier. simpl eq_int. cbv iota.
      now rewrite filter_debug_output_records.
  - rewrite stderr_phase_merged. split.
    + intros pd H. apply report_phase_returns in H. now subst pd.
    + exists []. split; [|split; [constructor|]].
      * cbn [logged fst app].
        change (executing_record args :: ?l)
          with ([executing_record args] ++ l) at 1.
        now rewrite filter_app, report_phase_no_debug.
      * intros pd _ ->. discriminate.
Qed.

Lemma exec_cmd_merged_stderr_witness :
  outcome (exec_cmd (Subprocess.LaunchStarts
                       (Subprocess.mkChild None [x6f; x0a; x65] [] 3))
                    DEBUG [lit "make"] None (Some PIPE) (Some STDOUT) None
                    false true)
  = Return (mkProcData true [x6f; x0a; x65] [] 3)
  /\ _stderr (mkProcData true [x6f; x0a; x65] [] 3) = [].
Proof.
  split; [reflexivity|].
  apply (proj1 (exec_cmd_merged_stderr
                  (Subprocess.LaunchStarts
                     (Subprocess.mkChild None [x6f; x0a; x65] [] 3))
                  DEBUG [lit "make"] None (Some PIPE) None false true)).
  reflexivity.
Defined.




(** C2. [exec_cmd] also raises when the child was started and no input
    was to be written: with [stdout=DEVNULL] a child that exits with
    status 0 makes it raise [TypeError], and so does one that exits with
    status 7, whose status is then not reported. *)
Theorem exec_cmd_raises_after_successful_spawn :
  outcome (exec_cmd (Subprocess.LaunchStarts (silent_child 0)) INFO
                    [lit "true"] None (Some DEVNULL) (Some PIPE) None
                    false true)
  = Raise TypeError
  /\ outcome (exec_cmd (Subprocess.LaunchStarts (silent_child 7)) INFO
                       [lit "sh"; lit "-c"; lit "exit 7"] None
                       (Some DEVNULL) (Some PIPE) None false true)
     = Raise TypeError.
Proof. split; reflexivity. Qed.

(** The part of C2 the code keeps: when [exec_cmd] returns, the child
    was started and [retcode] is its exit status, zero or not. *)
Lemma exec_cmd_retcode_is_exit_status
      (os : Subprocess.Launch) (lvl : Z) (args : list str)
      (input : option bytes) (stdout stderr : option Z) (cwd : option str)
      (ign dec : bool) (pd : ProcData) :
  outcome (exec_cmd os lvl args input stdout stderr cwd ign dec) = Return pd ->
  exists c, os = Subprocess.LaunchStarts c
            /\ retcode pd = Subprocess.exit_status c.
Proof.
  destruct os as [e|c]; [rewrite exec_cmd_launch_fails; discriminate|].
  rewrite exec_cmd_started. intros H. exists c. split; [reflexivity|].
  destruct (outcome (write_phase c input)); [|discriminate].
  destruct (stdout_phase _ _ _ _) as [l1 [pd1|e]]; [|discriminate].
  destruct (stderr_phase _ _ _) as [l2 [pd2|e]]; [|discriminate].
  cbn [outcome snd] in H. apply report_phase_returns in H. now subst pd.
Qed.

Lemma exec_cmd_exit_code_7 :
  outcome (exec_cmd (Subprocess.LaunchStarts (silent_child 7)) INFO
                    [lit "sh"; lit "-c"; lit "exit 7"] None
                    (Some PIPE) (Some PIPE) None false true)
  = Return (mkProcData true [] [] 7).
Proof. reflexivity. Qed.

(** C5. [exec_cmd_async] does not return what [exec_cmd] returns: for
    every launch configuration it raises, because the handle it reads its
    streams and exit code from is the coroutine object of a call that was
    never awaited. For the command [true] with the default arguments
    [exec_cmd] returns a [ProcData] with exit code 0 and [exec_cmd_async]
    raises [AttributeError]. *)
Theorem exec_cmd_async_never_returns :
  (forall (lvl : Z) (args : list str) (input : option bytes)
          (stdout stderr : option Z) (cwd : option str) (ign dec : bool),
      exists e,
        outcome (exec_cmd_async lvl args input stdout stderr cwd ign dec)
        = Raise e)
  /\ outcome (exec_cmd (Subprocess.LaunchStarts (silent_child 0)) INFO
                       [lit "true"] None (Some PIPE) (Some PIPE) None
                       false true)
     = Return (mkProcData true [] [] 0)
  /\ outcome (exec_cmd_async INFO [lit "true"] None (Some PIPE) (Some PIPE)
                             None false true)
     = Raise AttributeError.
Proof.
  split; [|split; reflexivity].
  intros lvl args input stdout stderr cwd ign dec.
  unfold exec_cmd_async. rewrite outcome_bind. cbn [outcome snd LOGGER_debug].
  destruct args as [|a rest]; [exists IndexError; reflexivity|].
  rewrite bind_ret_l.
  destruct input as [data|]; [exists AttributeError; reflexivity|].
  rewrite bind_ret_l.
  destruct (truthy_int stdout); [exists AttributeError; reflexivity|].
  rewrite bind_ret_l.
  destruct (truthy_int stderr && negb (eq_int stderr (Some STDOUT)));
    exists AttributeError; reflexivity.
Qed.

End LauncherClaims.

(* ================================================================= *)
(** ** Draining two pipes one after the other *)

Section PipeFacts.
Import Py Pipes.

Lemma outs_app (p q : Program) : outs (p ++ q) = outs p ++ outs q.
Proof.
  induction p as [|[[] b] t IH]; simpl; [reflexivity | now rewrite IH | exact IH].
Qed.

Lemma errs_app (p q : Program) : errs (p ++ q) = errs p ++ errs q.
Proof.
  induction p as [|[[] b] t IH]; simpl; [reflexivity | exact IH | now rewrite IH].
Qed.

Lemma outs_repeat_out (b : byte) (n : nat) :
  outs (repeat (FdOut, b) n) = repeat b n.
Proof. induction n; simpl; [reflexivity | now rewrite IHn]. Qed.

Lemma outs_repeat_err (b : byte) (n : nat) : outs (repeat (FdErr, b) n) = [].
Proof. induction n; simpl; [reflexivity | exact IHn]. Qed.

Lemma errs_repeat_err (b : byte) (n : nat) :
  errs (repeat (FdErr, b) n) = repeat b n.
Proof. induction n; simpl; [reflexivity | now rewrite IHn]. Qed.

Lemma errs_repeat_out (b : byte) (n : nat) : errs (repeat (FdOut, b) n) = [].
Proof. induction n; simpl; [reflexivity | exact IHn]. Qed.

(** The noisy child writes more than [capacity] bytes to each stream. *)
Lemma noisy_child_volume (capacity : nat) :
  length (outs (noisy_child capacity)) = S capacity
  /\ length (errs (noisy_child capacity)) = S capacity.
Proof.
  unfold noisy_child.
  rewrite outs_app, errs_app, outs_repeat_err, outs_repeat_out,
    errs_repeat_err, errs_repeat_out, app_nil_r.
  cbn [app]. now rewrite !repeat_length.
Qed.

Lemma drain_line_some (acc raw r : bytes) :
  drain_line acc raw = Some r -> r = acc ++ raw.
Proof.
  unfold drain_line. destruct (utf8_decode raw); congruence.
Qed.

Lemma drain_byte_some (acc cur : bytes) (b : byte) (acc' cur' : bytes) :
  drain_byte (acc, cur) b = Some (acc', cur') ->
  acc' ++ cur' = acc ++ cur ++ [b].
Proof.
  unfold drain_byte. destruct (Byte.eqb b newline).
  - destruct (drain_line acc (cur ++ [b])) as [r|] eqn:E; simpl; [|discriminate].
    intros [= <- <-]. apply drain_line_some in E. now rewrite app_nil_r.
  - now intros [= <- <-].
Qed.

Lemma drain_eof_some (acc cur r : bytes) :
  drain_eof (acc, cur) = Some r -> r = acc ++ cur.
Proof.
  unfold drain_eof. destruct cur as [|b t].
  - intros [= <-]. now rewrite app_nil_r.
  - apply drain_line_some.
Qed.

(** Fed a whole stream, the drain of the step model computes what
    [_iterate_proc_output] returns on that stream. *)
Lemma drain_all_pending (acc cur s : bytes) :
  forallb (fun b => negb (Byte.eqb b newline)) cur = true ->
  drain_all (acc, cur) s
  = if Facts.all_decode (iter_lines (cur ++ s))
    then Some (acc ++ cur ++ s) else None.
Proof.
  revert acc cur. induction s as [|b t IH]; intros acc cur Hcur.
  - rewrite app_nil_r. simpl drain_all. unfold drain_eof.
    destruct cur as [|c cs].
    + simpl. now rewrite app_nil_r.
    + rewrite (@iter_lines_fragment (c :: cs)); [|discriminate|exact Hcur].
      unfold drain_line, Facts.all_decode, Facts.decodes. cbn [forallb].
      now destruct (utf8_decode (c :: cs)).
  - cbn [drain_all]. unfold drain_byte.
    destruct (Byte.eqb b newline) eqn:Eb.
    + apply Byte.byte_dec_bl in Eb. subst b.
      rewrite (iter_lines_terminated _ t Hcur).
      unfold drain_line, Facts.all_decode, Facts.decodes. cbn [forallb].
      destruct (utf8_decode (cur ++ [newline])); simpl; [|reflexivity].
      rewrite (IH _ [] eq_refl). simpl.
      now rewrite <- !app_assoc.
    + rewrite IH.
      * now rewrite <- !app_assoc.
      * rewrite forallb_app, Hcur. simpl. now rewrite Eb.
Qed.

Lemma drain_all_iterate_proc_output (s : bytes)
      (c : Xjfx.ProcStreamClassifier.t) :
  drain_all ([], []) s
  = match Effect.outcome (Xjfx._iterate_proc_output (Some s) c) with
    | Effect.Return r => Some r
    | Effect.Raise _ => None
    end.
Proof.
  etransitivity; [exact (drain_all_pending [] [] s eq_refl)|]. simpl app.
  unfold Xjfx._iterate_proc_output. rewrite for_raw_line_spec.
  cbn [Effect.outcome snd].
  destruct (Facts.all_decode (iter_lines s)); [|reflexivity].
  now rewrite iter_lines_concat.
Qed.

End PipeFacts.

Section SequentialDrains.
Import Py Pipes.

Variable capacity : nat.

Lemma reachable_step (p : Program) (s s' : State) :
  reachable capacity p s -> step capacity s s' -> reachable capacity p s'.
Proof. intros Hr Hs. econstructor 2; eassumption. Qed.

Lemma accounted_initial (p : Program) : accounted p (initial p).
Proof. unfold accounted. simpl. repeat split. discriminate. Qed.

Lemma accounted_step (p : Program) (s s' : State) :
  accounted p s -> step capacity s s' -> accounted p s'.
Proof.
  intros Hinv Hs. destruct Hs; unfold accounted in *; simpl in *.
  - (* the child writes to its standard output *)
    destruct pa as [[acc cur]|out [acc cur]|out err|e]; trivial.
    + destruct Hinv as (Ho & He & _). repeat split; trivial.
      * now rewrite <- app_assoc.
      * discriminate.
    + destruct Hinv as (_ & Hp & _). discriminate.
  - (* the child writes to its standard error *)
    destruct pa as [[acc cur]|out [acc cur]|out err|e]; trivial.
    + destruct Hinv as (Ho & He & _). repeat split; trivial.
      * now rewrite <- app_assoc.
      * discriminate.
    + destruct Hinv as (_ & Hp & _). discriminate.
  - (* the child exits *)
    destruct pa as [[acc cur]|out [acc cur]|out err|e]; trivial.
    + destruct Hinv as (Ho & He & _). repeat split; trivial.
    + destruct Hinv as (Hr & _). discriminate.
  - (* the launcher reads a byte of standard output *)
    destruct d as [acc cur]. destruct Hinv as (Ho & He & Hr).
    unfold after_stdout_byte.
    destruct (drain_byte (acc, cur) b) as [[acc' cur']|] eqn:E; [|exact I].
    apply drain_byte_some in E. repeat split; trivial.
    rewrite app_assoc, E, <- Ho. now rewrite <- !app_assoc.
  - (* the launcher sees the end of standard output *)
    destruct d as [acc cur]. destruct Hinv as (Ho & He & Hr).
    unfold after_stdout_eof.
    destruct (drain_eof (acc, cur)) as [out|] eqn:E; [|exact I].
    apply drain_eof_some in E. specialize (Hr eq_refl). subst p0 out.
    simpl in *. rewrite !app_nil_r in *. repeat split; trivial.
  - (* the launcher reads a byte of standard error *)
    destruct d as [acc cur]. destruct Hinv as (Hr & Hp & Hpo & Hout & He).
    unfold after_stderr_byte.
    destruct (drain_byte (acc, cur) b) as [[acc' cur']|] eqn:E; [|exact I].
    apply drain_byte_some in E. repeat split; trivial.
    rewrite app_assoc, E, <- He. now rewrite <- !app_assoc.
  - (* the launcher sees the end of standard error *)
    destruct d as [acc cur]. destruct Hinv as (Hr & Hp & Hpo & Hout & He).
    unfold after_stderr_eof.
    destruct (drain_eof (acc, cur)) as [err|] eqn:E; [|exact I].
    apply drain_eof_some in E. rewrite app_nil_r in He. split; congruence.
Qed.

Lemma reachable_accounted (p : Program) (s : State) :
  reachable capacity p s -> accounted p s.
Proof.
  induction 1 as [|s s' Hs _ IH].
  - apply accounted_initial.
  - eapply accounted_step; eassumption.
Qed.

(** Every step uses up some of what is left to do. *)
Lemma step_measure (s s' : State) :
  step capacity s s' -> measure s' < measure s.
Proof.
  intros Hs. destruct Hs; unfold measure; simpl;
    rewrite ?length_app; simpl; try lia.
  - unfold after_stdout_byte. destruct (drain_byte d b); simpl; lia.
  - unfold after_stdout_eof. destruct (drain_eof d); simpl; lia.
  - unfold after_stderr_byte. destruct (drain_byte d b); simpl; lia.
  - unfold after_stderr_eof. destruct (drain_eof d); simpl; lia.
Qed.

Lemma runs_are_finite (s : State) : Acc (fun s' s => step capacity s s') s.
Proof.
  remember (measure s) as n eqn:E. revert s E.
  induction n as [n IH] using lt_wf_ind. intros s ->.
  constructor. intros s' Hs.
  apply (IH (measure s')); [now apply step_measure | reflexivity].
Qed.

(** As long as the standard error of the child fits in the pipe, somebody
    can move until the launcher is done. *)
Lemma progress (p : Program) (s : State) :
  1 <= capacity -> length (errs p) <= capacity ->
  accounted p s -> ~ final s -> exists s', step capacity s s'.
Proof.
  intros Hcap Herr Hinv Hnf.
  destruct s as [pr r po pe pa]. unfold accounted, final in *. simpl in *.
  destruct pa as [[acc cur]|out [acc cur]|out err|e];
    try (exfalso; apply Hnf; exact I).
  - destruct Hinv as (Ho & He & Hr).
    destruct po as [|b po'].
    + destruct r.
      * destruct pr as [|[[] b] pr'].
        -- eexists. apply child_exits.
        -- eexists. apply child_writes_stdout. simpl. lia.
        -- eexists. apply child_writes_stderr.
           apply (f_equal (@length byte)) in He.
           rewrite length_app in He. simpl in He. lia.
      * rewrite (Hr eq_refl). eexists. apply stdout_eof.
    + eexists. apply stdout_byte.
  - destruct Hinv as (Hr & Hp & Hpo & _). subst r pr po.
    destruct pe as [|b pe'].
    + eexists. apply stderr_eof.
    + eexists. apply stderr_byte.
Qed.

(** The noisy child fills the pipe of its standard error while the
    launcher waits for its standard output. *)
Lemma noisy_child_fills_stderr (k : nat) :
  k <= capacity ->
  reachable capacity (noisy_child capacity)
            (mkState (repeat (FdErr, x65) (S capacity - k)
                        ++ repeat (FdOut, x6f) (S capacity))
                     true [] (repeat x65 k) (DrainingStdout ([], []))).
Proof.
  induction k as [|k IH]; intros Hk.
  - rewrite Nat.sub_0_r. constructor 1.
  - eapply reachable_step; [apply IH; lia|].
    replace (S capacity - k) with (S (S capacity - S k)) by lia.
    replace (repeat x65 (S k)) with (repeat x65 k ++ [x65])
      by (now rewrite <- repeat_cons).
    simpl. apply child_writes_stderr. rewrite repeat_length. lia.
Qed.

Lemma noisy_child_deadlocks :
  exists s, reachable capacity (noisy_child capacity) s
            /\ deadlock capacity s.
Proof.
  eexists. split; [apply (noisy_child_fills_stderr (k := capacity)); lia|].
  replace (S capacity - capacity) with 1 by lia. simpl.
  split.
  - intros s' Hs. inversion Hs; subst.
    rewrite repeat_length in *. lia.
  - intros H. exact H.
Qed.

End SequentialDrains.

Section SequentialDrainClaims.
Import Py Pipes.

(** A run that finishes: the child writes one byte to its standard output
    and exits, the launcher reads it, sees the end of both streams and
    leaves with that byte. *)
Lemma one_byte_child_finishes :
  reachable 1 [(FdOut, x6f)] (mkState [] false [] [] (Finished [x6f] [])).
Proof.
  eapply reachable_step; [|exact (stderr_eof 1 [] [] [x6f] ([], []))].
  eapply reachable_step; [|exact (stdout_eof 1 [] [] ([], [x6f]))].
  eapply reachable_step; [|exact (child_exits 1 [] [] (DrainingStdout ([], [x6f])))].
  eapply reachable_step; [|exact (stdout_byte 1 [] true x6f [] [] ([], []))].
  eapply reachable_step;
    [|exact (@child_writes_stdout 1 x6f [] [] [] (DrainingStdout ([], []))
                                  (Nat.lt_0_succ 0))].
  constructor 1.
Qed.




End SequentialDrainClaims.

(* ================================================================= *)
(** ** What the launcher keeps of its contract *)

Section LauncherContract.
Import Py Logging Effect Xjfx Facts.
Local Open Scope Z_scope.

Lemma option_map_cons_app (c : N) (s : str) (o : option str) :
  option_map (cons c) (option_map (app s) o) = option_map (app (c :: s)) o.
Proof. now destruct o. Qed.

(** Decoding goes through a concatenation whose first part decodes. *)
Lemma utf8_decode_app (a b : bytes) (sa : str) :
  utf8_decode a = Some sa ->
  utf8_decode (a ++ b) = option_map (app sa) (utf8_decode b).
Proof.
  remember (length a) as n eqn:E. revert a sa E.
  induction n as [n IH] using lt_wf_ind. intros a sa -> H.
  assert (tail : forall t c s,
             (length t < length a)%nat ->
             option_map (cons c) (utf8_decode t) = Some s ->
             option_map (cons c) (utf8_decode (t ++ b))
             = option_map (app s) (utf8_decode b)).
  { intros t c s Hlt Ht.
    destruct (utf8_decode t) as [st|] eqn:Et; [|discriminate].
    injection Ht as <-.
    rewrite (IH (length t) Hlt t st eq_refl Et).
    apply option_map_cons_app. }
  destruct a as [|b0 t0].
  - injection H as <-. simpl. now destruct (utf8_decode b).
  - cbn [utf8_decode app] in *.
    destruct (Byte.to_N b0 <=? 127)%N.
    { apply tail; [simpl; lia | exact H]. }
    destruct (between 194 223 b0).
    { destruct t0 as [|b1 t1]; [discriminate|]. cbn [app].
      destruct (between 128 191 b1); [|discriminate].
      apply tail; [simpl; lia | exact H]. }
    destruct (between 224 239 b0).
    { destruct t0 as [|b1 [|b2 t2]]; try discriminate. cbn [app].
      cbv zeta in *.
      destruct (between _ _ b1 && between 128 191 b2); [|discriminate].
      apply tail; [simpl; lia | exact H]. }
    destruct (between 240 244 b0); [|discriminate].
    destruct t0 as [|b1 [|b2 [|b3 t3]]]; try discriminate. cbn [app].
    cbv zeta in *.
    destruct (between _ _ b1 && between 128 191 b2 && between 128 191 b3);
      [|discriminate].
    apply tail; [simpl; lia | exact H].
Qed.

(** A buffer made of lines that decode decodes as a whole. *)
Lemma utf8_decode_lines (s : bytes) :
  all_decode (iter_lines s) = true -> utf8_decode s <> None.
Proof.
  rewrite <- (iter_lines_concat s) at 2.
  induction (iter_lines s) as [|l ls IH]; simpl; [discriminate|].
  unfold decodes. destruct (utf8_decode l) as [sl|] eqn:E; [|discriminate].
  simpl. intros H. erewrite utf8_decode_app by exact E.
  specialize (IH H). now destruct (utf8_decode (concat ls)).
Qed.

(** The reporter does not raise on buffers that decode. *)
Lemma display_proc_result_returns (lvl : Z) (args : list str) (ign : bool)
      (pd : ProcData) :
  (decode_output pd = true ->
   utf8_decode (_stdout pd) <> None /\ utf8_decode (_stderr pd) <> None) ->
  outcome (_display_proc_result lvl args ign pd) = Return tt.
Proof.
  intros Hd. rewrite display_proc_result_unfold.
  destruct (negb ign && negb (retcode pd =? 0)); [|reflexivity].
  rewrite outcome_bind. cbn [outcome snd LOGGER_error].
  destruct (lvl >? DEBUG); [|reflexivity].
  assert (exists out err, outcome (ProcData_stdout pd) = Return out
                          /\ outcome (ProcData_stderr pd) = Return err)
    as (out & err & Ho & He).
  { unfold ProcData_stdout, ProcData_stderr, decode.
    destruct (decode_output pd); [|simpl; eauto].
    destruct (Hd eq_refl) as [H1 H2].
    destruct (utf8_decode (_stdout pd)); [|congruence].
    destruct (utf8_decode (_stderr pd)); [|congruence].
    simpl. eauto. }
  now rewrite (logged_aggregates_views pd Ho He).
Qed.

(** With both streams captured and every line UTF-8, the result of
    [exec_cmd] for a launch that reaches the end of both streams (the
    launches a [Subprocess.Child] stands for) is what the child wrote to
    each stream and the status it exited with, whatever that status is. *)
Lemma exec_cmd_captures_both (c : Subprocess.Child) (lvl : Z)
      (args : list str) (input : option bytes) (cwd : option str)
      (ign dec : bool) :
  input = None \/ Subprocess.write_error c = None ->
  all_decode (iter_lines (Subprocess.out_data c)) = true ->
  all_decode (iter_lines (Subprocess.err_data c)) = true ->
  outcome (exec_cmd (Subprocess.LaunchStarts c) lvl args input
                    (Some PIPE) (Some PIPE) cwd ign dec)
  = Return (mkProcData dec (Subprocess.out_data c) (Subprocess.err_data c)
                       (Subprocess.exit_status c)).
Proof.
  intros Hw Ho He.
  rewrite exec_cmd_started, (write_phase_ok c Hw). cbn [outcome snd].
  rewrite stdout_phase_spec. cbn [truthy_int eq_int PIPE Subprocess.PIPE
                                  Z.eqb negb Pos.eqb].
  rewrite Ho, stderr_phase_spec.
  cbn [truthy_int eq_int PIPE STDOUT Subprocess.PIPE Subprocess.STDOUT
                  Z.eqb negb andb Pos.eqb].
  rewrite He. cbn [outcome snd].
  unfold report_phase. rewrite outcome_bind, display_proc_result_returns.
  - reflexivity.
  - intros _. split; now apply utf8_decode_lines.
Qed.

(** The buffers the two drains leave in the record decode. *)
Lemma stdout_phase_decodes (c : Subprocess.Child) (stdout stderr : option Z)
      (dec : bool) (pd1 : ProcData) :
  outcome (stdout_phase c stdout stderr (ProcData_init dec)) = Return pd1 ->
  utf8_decode (_stdout pd1) <> None /\ _stderr pd1 = [].
Proof.
  rewrite stdout_phase_spec.
  destruct (truthy_int stdout).
  - destruct (eq_int stdout (Some PIPE)); [|discriminate].
    destruct (all_decode (iter_lines (Subprocess.out_data c))) eqn:D;
      [|discriminate].
    intros [= <-]. split; [now apply utf8_decode_lines | reflexivity].
  - intros [= <-]. split; [discriminate | reflexivity].
Qed.

Lemma stderr_phase_decodes (c : Subprocess.Child) (stderr : option Z)
      (pd1 pd2 : ProcData) :
  _stderr pd1 = [] ->
  outcome (stderr_phase c stderr pd1) = Return pd2 ->
  _stdout pd2 = _stdout pd1 /\ utf8_decode (_stderr pd2) <> None.
Proof.
  intros Hempty. rewrite stderr_phase_spec.
  destruct (truthy_int stderr && negb (eq_int stderr (Some STDOUT))).
  - destruct (eq_int stderr (Some PIPE)); [|discriminate].
    destruct (all_decode (iter_lines (Subprocess.err_data c))) eqn:D;
      [|discriminate].
    intros [= <-]. split; [reflexivity | now apply utf8_decode_lines].
  - intros [= <-]. rewrite Hempty. split; [reflexivity | discriminate].
Qed.

(** The outcome of [exec_cmd] on a started child: the exception of the
    first phase that raises, and otherwise the record the drains filled,
    with the exit status of the child. The reporter never raises here. *)
Lemma exec_cmd_outcome (c : Subprocess.Child) (lvl : Z) (args : list str)
      (input : option bytes) (stdout stderr : option Z) (cwd : option str)
      (ign dec : bool) :
  outcome (exec_cmd (Subprocess.LaunchStarts c) lvl args input stdout stderr
                    cwd ign dec)
  = match outcome (write_phase c input) with
    | Raise e => Raise e
    | Return _ =>
      match outcome (stdout_phase c stdout stderr (ProcData_init dec)) with
      | Raise e => Raise e
      | Return pd1 =>
        match outcome (stderr_phase c stderr pd1) with
        | Raise e => Raise e
        | Return pd2 =>
          Return (ProcData_set_retcode pd2 (Subprocess.exit_status c))
        end
      end
    end.
Proof.
  rewrite exec_cmd_started.
  destruct (outcome (write_phase c input)); [|reflexivity].
  pose proof (@stdout_phase_decodes c stdout stderr dec) as H1.
  destruct (stdout_phase c stdout stderr (ProcData_init dec))
    as [l1 [pd1|e1]]; [|reflexivity].
  destruct (H1 pd1 eq_refl) as [Ho He]. cbn [outcome snd].
  pose proof (@stderr_phase_decodes c stderr pd1) as H2.
  destruct (stderr_phase c stderr pd1) as [l2 [pd2|e2]]; [|reflexivity].
  destruct (H2 pd2 He eq_refl) as [Ho2 He2].
  cbn [outcome snd]. unfold report_phase.
  rewrite outcome_bind, display_proc_result_returns; [reflexivity|].
  intros _. simpl. rewrite Ho2. now split.
Qed.

(** A non-zero exit is never what makes [exec_cmd] raise: an exception
    raised for a child is raised just the same for the child that differs
    from it in nothing but an exit status of zero. *)
Lemma exec_cmd_exit_status_not_raised (c : Subprocess.Child) (lvl : Z)
      (args : list str) (input : option bytes) (stdout stderr : option Z)
      (cwd : option str) (ign dec : bool) (e : PyError) :
  outcome (exec_cmd (Subprocess.LaunchStarts c) lvl args input stdout stderr
                    cwd ign dec) = Raise e ->
  outcome (exec_cmd (Subprocess.LaunchStarts
                       (Subprocess.mkChild (Subprocess.write_error c)
                                           (Subprocess.out_data c)
                                           (Subprocess.err_data c) 0))
                    lvl args input stdout stderr cwd ign dec) = Raise e.
Proof.
  rewrite !exec_cmd_outcome.
  change (write_phase (Subprocess.mkChild _ _ _ 0) input)
    with (write_phase c input).
  destruct (outcome (write_phase c input)); [|trivial].
  change (stdout_phase (Subprocess.mkChild _ _ _ 0) stdout stderr)
    with (stdout_phase c stdout stderr).
  destruct (outcome (stdout_phase c stdout stderr (ProcData_init dec)))
    as [pd1|e1]; [|trivial].
  change (stderr_phase (Subprocess.mkChild _ _ _ 0) stderr)
    with (stderr_phase c stderr).
  destruct (outcome (stderr_phase c stderr pd1)); [discriminate | trivial].
Qed.

End LauncherContract.

(* ================================================================= *)
(** ** [grouper] *)

Section IteratorFacts.
Import Py Iteration.

Context {A : Type}.

Lemma firstn_plus (a b : nat) (l : list A) :
  firstn (a + b) l = firstn a l ++ firstn b (skipn a l).
Proof.
  revert l. induction a as [|a IH]; intros l; [reflexivity|].
  destruct l as [|x l]; simpl.
  - now rewrite firstn_nil.
  - now rewrite IH.
Qed.

(** Enough items for every reference: the tuple is the next [refs] items. *)
Lemma zip_next_enough (position refs : nat) (it : list A) :
  refs <= length it ->
  zip_next position refs it = (inl (firstn refs it), skipn refs it).
Proof.
  revert position it. induction refs as [|refs IH]; intros position it H.
  - reflexivity.
  - destruct it as [|x it]; simpl in *; [lia|].
    rewrite IH by lia. reflexivity.
Qed.

(** Too few items: the reference after the last item finds the iterator
    exhausted, and the items taken are gone. *)
Lemma zip_next_short (position refs : nat) (it : list A) :
  length it < refs ->
  zip_next position refs it = (inr (position + length it), []).
Proof.
  revert position it. induction refs as [|refs IH]; intros position it H.
  - lia.
  - destruct it as [|x it]; simpl in *.
    + now rewrite Nat.add_0_r.
    + rewrite IH by lia. f_equal. f_equal. lia.
Qed.

(** [zip] over [refs] references to one iterator: the full groups of
    [refs] items, and with [strict] a [ValueError] after them when items
    are left over. *)
Lemma zip_loop_spec (strict : bool) (refs : nat) (fuel : nat) (it : list A) :
  1 <= refs -> length it < fuel ->
  exists tuples,
    zip_loop strict fuel refs it
    = Some (mkRun tuples
                  (if strict && negb (length it mod refs =? 0)
                   then Some ValueError else None))
    /\ Forall (fun t => length t = refs) tuples
    /\ concat tuples = firstn (length it - length it mod refs) it.
Proof.
  intros Hrefs. revert it. induction fuel as [|fuel IH]; intros it Hfuel; [lia|].
  cbn [zip_loop].
  destruct (le_lt_dec refs (length it)) as [Hle|Hlt].
  - rewrite zip_next_enough by exact Hle.
    assert (Hmod : (length it - refs) mod refs = length it mod refs).
    { replace (length it) with (length it - refs + 1 * refs) at 2 by lia.
      now rewrite Nat.Div0.mod_add. }
    destruct (IH (skipn refs it)) as (tuples & E & Hall & Hcat).
    { rewrite length_skipn. lia. }
    rewrite length_skipn, Hmod in E, Hcat. rewrite E.
    exists (firstn refs it :: tuples). split; [reflexivity|]. split.
    + constructor; [|exact Hall]. rewrite length_firstn. lia.
    + cbn [concat]. rewrite Hcat, <- firstn_plus. f_equal.
      pose proof (Nat.Div0.mod_le (length it - refs) refs). lia.
  - rewrite zip_next_short by exact Hlt. cbn [Nat.add].
    rewrite (Nat.mod_small _ _ Hlt), Nat.sub_diag.
    exists []. split; [|split; [constructor | reflexivity]].
    destruct strict; [|reflexivity].
    destruct it as [|x it']; reflexivity.
Qed.

(** A pass of [zip_longest] whose active references are all still the
    shared iterator. *)
Lemma longest_round_all_active (fillvalue : A) (k : nat) (it : list A)
      (na : nat) :
  k - length it < na ->
  longest_round fillvalue (repeat true k) na it
  = Some (firstn k it ++ repeat fillvalue (k - length it),
          repeat true (Nat.min k (length it)) ++ repeat false (k - length it),
          na - (k - length it),
          skipn k it).
Proof.
  revert it na. induction k as [|k IH]; intros it na H.
  - cbn. now rewrite Nat.sub_0_r.
  - destruct it as [|x it]; cbn [repeat longest_round length].
    + destruct (na - 1) as [|m] eqn:E; [cbn in H; lia|].
      rewrite <- E, IH by (cbn in *; lia).
      cbn. rewrite firstn_nil, skipn_nil, Nat.min_0_r, Nat.sub_0_r.
      cbn. now replace (na - 1 - k) with (na - S k) by lia.
    + rewrite IH by (cbn in *; lia). reflexivity.
Qed.

(** The pass after the iterator is exhausted: the last active reference
    ends the generator. *)
Lemma longest_round_exhausted (fillvalue : A) (m j : nat) :
  1 <= m ->
  longest_round fillvalue (repeat true m ++ repeat false j) m [] = None.
Proof.
  induction m as [|m IH]; intros H; [lia|].
  cbn [repeat app longest_round]. rewrite Nat.sub_1_r. cbn [Nat.pred].
  destruct m as [|m]; [reflexivity|].
  now rewrite IH by lia.
Qed.

(** [zip_longest] over [refs] references to one iterator: groups of [refs]
    items, the last one filled up with [fillvalue]. *)
Lemma longest_loop_spec (fillvalue : A) (refs fuel : nat) (it : list A) :
  1 <= refs -> length it < fuel ->
  exists tuples,
    longest_loop fillvalue fuel (repeat true refs) refs it
    = Some (mkRun tuples None)
    /\ Forall (fun t => length t = refs) tuples
    /\ concat tuples
       = it ++ repeat fillvalue
                      (if length it mod refs =? 0 then 0
                       else refs - length it mod refs).
Proof.
  intros Hrefs. revert it. induction fuel as [|fuel IH]; intros it Hfuel; [lia|].
  cbn [longest_loop].
  destruct (le_lt_dec refs (length it)) as [Hle|Hlt].
  - rewrite longest_round_all_active by lia.
    replace (refs - length it) with 0 by lia.
    rewrite Nat.min_l by lia. cbn [repeat]. rewrite !app_nil_r, Nat.sub_0_r.
    assert (Hmod : (length it - refs) mod refs = length it mod refs).
    { replace (length it) with (length it - refs + 1 * refs) at 2 by lia.
      now rewrite Nat.Div0.mod_add. }
    destruct (IH (skipn refs it)) as (tuples & E & Hall & Hcat).
    { rewrite length_skipn. lia. }
    rewrite length_skipn, Hmod in Hcat. rewrite E.
    exists (firstn refs it :: tuples). split; [reflexivity|]. split.
    + constructor; [|exact Hall]. rewrite length_firstn. lia.
    + cbn [concat]. rewrite Hcat, app_assoc. now rewrite firstn_skipn.
  - destruct it as [|x it'] eqn:Eit.
    + pose proof (@longest_round_exhausted fillvalue refs 0 Hrefs) as Hex.
      cbn [repeat] in Hex. rewrite app_nil_r in Hex. rewrite Hex.
      exists []. rewrite Nat.Div0.mod_0_l. repeat split. constructor.
    + rewrite <- Eit in *. assert (Hpos : 1 <= length it) by (subst; cbn; lia).
      rewrite longest_round_all_active by lia.
      rewrite firstn_all2 by lia. rewrite skipn_all2 by lia.
      rewrite Nat.min_r by lia.
      replace (refs - (refs - length it)) with (length it) by lia.
      destruct fuel as [|fuel]; [lia|]. cbn [longest_loop].
      rewrite longest_round_exhausted by lia.
      rewrite (Nat.mod_small _ _ Hlt).
      destruct (length it =? 0) eqn:E0; [apply Nat.eqb_eq in E0; lia|].
      exists [it ++ repeat fillvalue (refs - length it)].
      split; [reflexivity|]. split.
      * constructor; [|constructor]. rewrite length_app, repeat_length. lia.
      * cbn. now rewrite app_nil_r.
Qed.

End IteratorFacts.

Section GrouperProperties.
Import Py Iteration Grouping.

Context {A : Type}.

Lemma to_nat_positive (n : Z) : (0 < n)%Z -> exists k, Z.to_nat n = S k.
Proof.
  intros H. destruct (Z.to_nat n) as [|k] eqn:E; [lia | now exists k].
Qed.

Lemma of_nat_mod (len : nat) (n : Z) :
  (0 < n)%Z -> (Z.of_nat len mod n)%Z = Z.of_nat (len mod Z.to_nat n).
Proof.
  intros H. rewrite Nat2Z.inj_mod, Z2Nat.id by lia. reflexivity.
Qed.

Lemma app_same_length (a a' b b' : list A) :
  length a = length a' -> a ++ b = a' ++ b' -> a = a' /\ b = b'.
Proof.
  revert a'. induction a as [|x a IH]; intros [|x' a'] Hl E;
    try discriminate; [now split|].
  cbn in *. injection E as -> E. injection Hl as Hl.
  destruct (IH a' Hl E) as [-> ->]. now split.
Qed.

(** Groups of one positive size are determined by what they hold. *)
Lemma groups_unique (k : nat) (g g' : list (list A)) :
  1 <= k ->
  Forall (fun t => length t = k) g ->
  Forall (fun t => length t = k) g' ->
  concat g = concat g' -> g = g'.
Proof.
  intros Hk Hg. revert g'. induction Hg as [|t ts Ht _ IH]; intros g' Hg' E.
  - destruct Hg' as [|t' ts' Ht' _]; [reflexivity|].
    destruct t'; cbn in *; [lia | discriminate].
  - destruct Hg' as [|t' ts' Ht' Hg']; cbn in E.
    + destruct t; cbn in *; [lia | discriminate].
    + destruct (@app_same_length t t' (concat ts) (concat ts')) as [-> Hc];
        [congruence | exact E |].
      f_equal. now apply IH.
Qed.

(** [zip] over [n] references, for a positive [n]. *)
Lemma zip_spec (strict : bool) (n : Z) (i : list A) :
  (0 < n)%Z ->
  exists tuples,
    zip strict (Z.to_nat n) i
    = Some (mkRun tuples
                  (if strict && negb (length i mod Z.to_nat n =? 0)
                   then Some ValueError else None))
    /\ Forall (fun t => length t = Z.to_nat n) tuples
    /\ concat tuples = firstn (length i - length i mod Z.to_nat n) i.
Proof.
  intros H. destruct (to_nat_positive H) as [k Ek]. unfold zip. rewrite Ek.
  apply zip_loop_spec; lia.
Qed.

(** X1. For a positive [n], [grouper] with [FILL] never raises; every
    tuple it yields has exactly [n] items, and the tuples put end to end
    are the input followed by fewer than [n] copies of [fillvalue], none
    when [n] divides the length of the input. *)
Theorem grouper_fill_pads (i : list A) (n : Z) (fillvalue : A) :
  (0 < n)%Z ->
  exists tuples pad,
    grouper i n GrouperIncomplete.FILL fillvalue
    = Some (Iterates (mkRun tuples None))
    /\ Forall (fun t => length t = Z.to_nat n) tuples
    /\ concat tuples = i ++ repeat fillvalue pad
    /\ pad < Z.to_nat n
    /\ (length i mod Z.to_nat n = 0 -> pad = 0).
Proof.
  intros H. destruct (to_nat_positive H) as [k Ek].
  unfold grouper. cbn [GrouperIncomplete.eqb GrouperIncomplete.value Z.eqb Pos.eqb].
  unfold zip_longest. rewrite Ek.
  destruct (@longest_loop_spec A fillvalue (S k) (S (length i)) i)
    as (tuples & E & Hall & Hcat); [lia | lia |].
  rewrite E. exists tuples. eexists. split; [reflexivity|].
  split; [exact Hall|]. split; [exact Hcat|].
  destruct (length i mod S k =? 0) eqn:E0.
  - split; [lia | trivial].
  - apply Nat.eqb_neq in E0. split; [lia | intros; lia].
Qed.

(** X2. For a positive [n], [grouper] with [IGNORE] never raises; every
    tuple has exactly [n] items, and the tuples put end to end are the
    input without its last [len mod n] items, which are dropped. *)
Theorem grouper_ignore_drops_tail (i : list A) (n : Z) (fillvalue : A) :
  (0 < n)%Z ->
  exists tuples dropped,
    grouper i n GrouperIncomplete.IGNORE fillvalue
    = Some (Iterates (mkRun tuples None))
    /\ Forall (fun t => length t = Z.to_nat n) tuples
    /\ i = concat tuples ++ dropped
    /\ length dropped = length i mod Z.to_nat n.
Proof.
  intros H. destruct (to_nat_positive H) as [k Ek].
  unfold grouper. cbn [GrouperIncomplete.eqb GrouperIncomplete.value Z.eqb Pos.eqb].
  destruct (zip_spec false i H) as (tuples & E & Hall & Hcat).
  rewrite E. cbn [andb option_map].
  exists tuples, (skipn (length i - length i mod Z.to_nat n) i).
  split; [reflexivity|]. split; [exact Hall|]. split.
  - rewrite Hcat. now rewrite firstn_skipn.
  - rewrite length_skipn.
    pose proof (Nat.Div0.mod_le (length i) (Z.to_nat n)). lia.
Qed.

(** X3. For a positive [n], [grouper] with [STRICT] yields the same tuples
    as with [IGNORE]; after them the iterator raises [ValueError] when [n]
    does not divide the length of the input, and stops normally when it
    does. *)
Theorem grouper_strict_raises_after_full_groups
        (i : list A) (n : Z) (fillvalue : A) :
  (0 < n)%Z ->
  exists tuples,
    grouper i n GrouperIncomplete.IGNORE fillvalue
    = Some (Iterates (mkRun tuples None))
    /\ grouper i n GrouperIncomplete.STRICT fillvalue
       = Some (Iterates
                 (mkRun tuples
                        (if length i mod Z.to_nat n =? 0
                         then None else Some ValueError))).
Proof.
  intros H.
  unfold grouper. cbn [GrouperIncomplete.eqb GrouperIncomplete.value Z.eqb Pos.eqb].
  destruct (zip_spec false i H) as (tuples & E & Hall & Hcat).
  destruct (zip_spec true i H) as (tuples' & E' & Hall' & Hcat').
  rewrite E, E'. cbn [andb option_map].
  assert (tuples' = tuples) as ->.
  { apply (@groups_unique (Z.to_nat n)); trivial; [lia | congruence]. }
  exists tuples. split; [reflexivity|].
  now destruct (length i mod Z.to_nat n =? 0).
Qed.

(** X4. For a positive [n], [grouper] with [REMAINDER] never raises and
    loses nothing: the tuples put end to end are the input. All tuples have
    [n] items except that, when [n] does not divide the length of the
    input, a last tuple holds the [len mod n] items left over. *)
Theorem grouper_remainder_partitions (i : list A) (n : Z) (fillvalue : A) :
  (0 < n)%Z ->
  exists full last,
    grouper i n GrouperIncomplete.REMAINDER fillvalue
    = Some (Iterates (mkRun (full ++ last) None))
    /\ Forall (fun t => length t = Z.to_nat n) full
    /\ concat (full ++ last) = i
    /\ (last = [] /\ length i mod Z.to_nat n = 0
        \/ exists t, last = [t]
                     /\ length t = length i mod Z.to_nat n
                     /\ 0 < length t).
Proof.
  intros H.
  unfold grouper. cbn [GrouperIncomplete.eqb GrouperIncomplete.value Z.eqb Pos.eqb].
  destruct (n =? 0)%Z eqn:E0; [apply Z.eqb_eq in E0; lia|].
  destruct (zip_spec false i H) as (tuples & E & Hall & Hcat).
  rewrite E. cbn [andb option_map]. unfold chain. cbn [raised yielded].
  rewrite (of_nat_mod _ H).
  pose proof (Nat.Div0.mod_le (length i) (Z.to_nat n)) as Hle.
  destruct (Z.of_nat (length i mod Z.to_nat n) =? 0)%Z eqn:Er; cbn [negb].
  - apply Z.eqb_eq in Er. assert (Hr : length i mod Z.to_nat n = 0) by lia.
    exists tuples, []. cbn [yielded raised exhausted].
    split; [reflexivity|]. split; [exact Hall|]. split; [|now left].
    rewrite app_nil_r, Hcat, Hr, Nat.sub_0_r. apply firstn_all.
  - apply Z.eqb_neq in Er.
    exists tuples, [slice_from (- Z.of_nat (length i mod Z.to_nat n)) i].
    cbn [yielded raised].
    assert (Hs : slice_from (- Z.of_nat (length i mod Z.to_nat n)) i
                 = skipn (length i - length i mod Z.to_nat n) i).
    { unfold slice_from.
      destruct (- Z.of_nat (length i mod Z.to_nat n) <? 0)%Z eqn:El;
        [|apply Z.ltb_ge in El; lia].
      f_equal. lia. }
    split; [reflexivity|]. split; [exact Hall|]. split.
    + rewrite concat_app. cbn [concat]. rewrite app_nil_r, Hcat, Hs.
      apply firstn_skipn.
    + right. eexists. split; [reflexivity|]. rewrite Hs, length_skipn. lia.
Qed.

(** X5. A group size that is not positive is not refused: for [n <= 0],
    [grouper] with [FILL], [STRICT] or [IGNORE] returns an iterator that
    yields nothing, whatever the input holds, and with [REMAINDER] and
    [n = 0] the call itself raises [ZeroDivisionError]. *)
Theorem grouper_nonpositive_size (i : list A) (n : Z) (fillvalue : A) :
  (n <= 0)%Z ->
  grouper i n GrouperIncomplete.FILL fillvalue = Some (Iterates exhausted)
  /\ grouper i n GrouperIncomplete.STRICT fillvalue = Some (Iterates exhausted)
  /\ grouper i n GrouperIncomplete.IGNORE fillvalue = Some (Iterates exhausted)
  /\ grouper i 0 GrouperIncomplete.REMAINDER fillvalue
     = Some (CallRaises ZeroDivisionError).
Proof.
  intros H. unfold grouper.
  replace (Z.to_nat n) with 0 by lia. repeat split.
Qed.

(** X6. When a positive [n] divides the length of the input, the four
    modes of [grouper] agree: each yields the same tuples of [n] items,
    which put end to end are the input, and none raises. *)
Theorem grouper_modes_agree_on_exact_division
        (i : list A) (n : Z) (fillvalue : A) :
  (0 < n)%Z ->
  length i mod Z.to_nat n = 0 ->
  exists tuples,
    concat tuples = i
    /\ Forall (fun t => length t = Z.to_nat n) tuples
    /\ forall mode,
        grouper i n mode fillvalue = Some (Iterates (mkRun tuples None)).
Proof.
  intros H Hdiv. destruct (to_nat_positive H) as [k Ek].
  destruct (zip_spec false i H) as (tuples & E & Hall & Hcat).
  destruct (zip_spec true i H) as (tuples' & E' & Hall' & Hcat').
  rewrite Hdiv in *. rewrite Nat.sub_0_r, firstn_all in Hcat, Hcat'.
  assert (tuples' = tuples) as ->.
  { apply (@groups_unique (Z.to_nat n)); trivial; [lia | congruence]. }
  destruct (@longest_loop_spec A fillvalue (S k) (S (length i)) i)
    as (padded & El & Hallp & Hcatp); [lia | lia |].
  rewrite <- Ek, Hdiv in Hcatp. cbn in Hcatp. rewrite app_nil_r in Hcatp.
  assert (padded = tuples) as ->.
  { apply (@groups_unique (Z.to_nat n)); trivial; [lia | | congruence].
    now rewrite Ek. }
  exists tuples. split; [exact Hcat|]. split; [exact Hall|].
  intros mode. unfold grouper.
  destruct mode;
    cbn [GrouperIncomplete.eqb GrouperIncomplete.value Z.eqb Pos.eqb].
  - unfold zip_longest. rewrite Ek, El. reflexivity.
  - rewrite E'. reflexivity.
  - rewrite E. reflexivity.
  - destruct (n =? 0)%Z eqn:E0; [apply Z.eqb_eq in E0; lia|].
    rewrite E, (of_nat_mod _ H), Hdiv. cbn.
    unfold chain. cbn. now rewrite app_nil_r.
Qed.

(** X7. A negative [n] is not refused by [REMAINDER] either: the iterator
    yields nothing when [n] divides the length of the input, and otherwise
    one single tuple, the input without its first [-(len mod n)] items (all
    of it gone when there are fewer). *)
Theorem grouper_remainder_negative_size (i : list A) (n : Z) (fillvalue : A) :
  (n < 0)%Z ->
  exists tuples,
    grouper i n GrouperIncomplete.REMAINDER fillvalue
    = Some (Iterates (mkRun tuples None))
    /\ (tuples = [] /\ (Z.of_nat (length i) mod n = 0)%Z
        \/ exists dropped t,
            tuples = [t]
            /\ i = dropped ++ t
            /\ Z.of_nat (length dropped)
               = Z.min (- (Z.of_nat (length i) mod n)) (Z.of_nat (length i))).
Proof.
  intros H. unfold grouper.
  cbn [GrouperIncomplete.eqb GrouperIncomplete.value Z.eqb Pos.eqb].
  destruct (n =? 0)%Z eqn:E0; [apply Z.eqb_eq in E0; lia|].
  replace (Z.to_nat n) with 0 by lia. cbn [zip option_map].
  unfold chain. cbn [raised yielded exhausted app].
  pose proof (Z.mod_neg_bound (Z.of_nat (length i)) n H) as Hb.
  destruct (Z.of_nat (length i) mod n =? 0)%Z eqn:Er; cbn [negb].
  - apply Z.eqb_eq in Er. exists []. split; [reflexivity | now left].
  - apply Z.eqb_neq in Er. eexists. split; [reflexivity|]. right.
    unfold slice_from.
    destruct (- (Z.of_nat (length i) mod n) <? 0)%Z eqn:El;
      [apply Z.ltb_lt in El; lia|].
    eexists (firstn _ i), _. split; [reflexivity|]. split.
    + symmetry. apply firstn_skipn.
    + rewrite length_firstn. lia.
Qed.

End GrouperProperties.

(* ================================================================= *)
(** ** [setup_logging], [get_answer] and [thr_exec] *)

Section UtilityProperties.
Import Py Logging Iteration Prompting Setup_logging Threads.

Lemma str_eqb_eq (a b : str) : str_eqb a b = true <-> a = b.
Proof.
  revert b. induction a as [|x a IH]; intros [|y b]; cbn;
    try (split; [discriminate | discriminate]); [tauto|].
  rewrite andb_true_iff, N.eqb_eq, IH. split.
  - now intros [-> ->].
  - intros [= -> ->]. now split.
Qed.

Lemma str_eqb_refl (a : str) : str_eqb a a = true.
Proof. now apply str_eqb_eq. Qed.

Lemma str_eqb_neq (a b : str) : a <> b -> str_eqb a b = false.
Proof.
  intros H. destruct (str_eqb a b) eqn:E; [|reflexivity].
  apply str_eqb_eq in E. contradiction.
Qed.

Lemma ljust_length (width : nat) (s : str) :
  length (ljust width s) = Nat.max width (length s).
Proof. unfold ljust. rewrite length_app, repeat_length. lia. Qed.


(** A level name outside the six has no colour. *)
Lemma color_log_record_unknown_levelname (name levelname message : str) :
  ~ In levelname standard_levelnames ->
  ColorLogRecord_init name levelname message = Raises (KeyError levelname).
Proof.
  intros H. unfold ColorLogRecord_init, colors_lvls.
  unfold standard_levelnames in H. cbn [In] in H.
  cbn [getitem].
  rewrite !str_eqb_neq by (intros E; apply H; rewrite E; tauto).
  reflexivity.
Qed.


Section AnyLower.

Variable str_lower : str -> str.

Lemma existsb_str_eqb (s : str) (accept : list str) :
  existsb (str_eqb s) accept = true <-> In s accept.
Proof.
  rewrite existsb_exists. split.
  - intros (a & Ha & E). apply str_eqb_eq in E. now subst.
  - intros H. exists s. split; [exact H | apply str_eqb_refl].
Qed.

(** X10. The answer is put in lower case whatever [lower] says. So with
    [lower=False] the typed line is accepted exactly when its lower-case
    form is one of the options as written, and options none of which is
    the lower case of anything are never accepted, whatever is typed. *)
Theorem get_answer_always_lowers_the_answer
        (typed prompt : str) (accept : list str) :
  (snd (get_answer str_lower typed prompt accept false) = true
   <-> In (str_lower typed) accept)
  /\ (Forall (fun a => forall s, str_lower s <> a) accept ->
      snd (get_answer str_lower typed prompt accept false) = false).
Proof.
  assert (E : snd (get_answer str_lower typed prompt accept false)
              = existsb (str_eqb (str_lower typed)) accept).
  { unfold get_answer. cbn [snd].
    now destruct (existsb _ accept). }
  rewrite E. split; [apply existsb_str_eqb|].
  intros H. destruct (existsb _ accept) eqn:Ex; [|reflexivity].
  apply existsb_str_eqb in Ex. rewrite Forall_forall in H.
  exfalso. apply (H (str_lower typed) Ex typed). reflexivity.
Qed.

(** X11. [get_yes] shows the prompt followed by [" [Y|n] "] and, lower
    case being idempotent and leaving ["yes"] and ["y"] alone, returns
    [True] exactly when the typed line in lower case is ["yes"], ["y"] or
    empty. *)
Theorem get_yes_accepts_yes_y_or_nothing (typed prompt : str) :
  (forall s, str_lower (str_lower s) = str_lower s) ->
  str_lower (lit "yes") = lit "yes" ->
  str_lower (lit "y") = lit "y" ->
  str_lower [] = [] ->
  fst (get_yes str_lower typed prompt) = prompt ++ lit " [Y|n] "
  /\ (snd (get_yes str_lower typed prompt) = true
      <-> str_lower typed = lit "yes"
          \/ str_lower typed = lit "y"
          \/ str_lower typed = []).
Proof.
  intros Hidem Hyes Hy Hnil. unfold get_yes, get_answer. cbn [fst snd]. split.
  - now rewrite <- app_assoc.
  - cbn [existsb]. change (lit "") with (@nil N).
    rewrite Hidem, Hyes, Hy, Hnil, orb_false_r.
    destruct (str_eqb (str_lower typed) (lit "yes")) eqn:E1.
    { apply str_eqb_eq in E1. cbn [orb]. tauto. }
    destruct (str_eqb (str_lower typed) (lit "y")) eqn:E2.
    { apply str_eqb_eq in E2. cbn [orb]. tauto. }
    destruct (str_eqb (str_lower typed) []) eqn:E3.
    { apply str_eqb_eq in E3. cbn [orb]. tauto. }
    cbn [orb]. split; [discriminate|].
    intros [H|[H|H]]; rewrite H in *; cbn in *; discriminate.
Qed.

End AnyLower.

Lemma collect_no_abort (completed : list TaskOutcome) :
  ~ In Aborts completed ->
  collect completed
  = (flat_map (fun o => match o with
                        | Fails text => [task_error_record text]
                        | _ => []
                        end) completed,
     None).
Proof.
  induction completed as [|o rest IH]; intros H; [reflexivity|].
  cbn [In] in H. destruct o as [|text|]; cbn [collect flat_map].
  - apply IH. tauto.
  - rewrite IH by tauto. reflexivity.
  - exfalso. apply H. now left.
Qed.

(** X12. With a usable [max_workers] and no task raising anything but an
    [Exception], [thr_exec] returns normally whatever the order in which
    the tasks complete: no failure of a task reaches the caller. It logs
    one error record for each task that failed, carrying the text of its
    exception, and nothing for the tasks that succeeded. *)
Theorem thr_exec_logs_each_failure_once
        {T} (func : T -> TaskOutcome) (args completed : list T)
        (max_workers : option Z) :
  (forall w, max_workers = Some w -> (0 < w)%Z) ->
  Permutation.Permutation args completed ->
  ~ In Aborts (map func args) ->
  snd (thr_exec func args max_workers completed) = None
  /\ Permutation.Permutation
       (fst (thr_exec func args max_workers completed))
       (flat_map (fun a => match func a with
                           | Fails text => [task_error_record text]
                           | _ => []
                           end) args).
Proof.
  intros Hw Hperm Hno.
  assert (E : thr_exec func args max_workers completed
              = collect (map func completed)).
  { unfold thr_exec. destruct max_workers as [w|]; [|reflexivity].
    specialize (Hw w eq_refl).
    destruct (w <=? 0)%Z eqn:Ew; [apply Z.leb_le in Ew; lia | reflexivity]. }
  rewrite E.
  assert (Hno' : ~ In Aborts (map func completed)).
  { intros H. apply Hno. apply in_map_iff in H as (a & Ea & Ha).
    apply in_map_iff. exists a. split; [exact Ea|].
    eapply Permutation.Permutation_in; [symmetry; exact Hperm | exact Ha]. }
  rewrite collect_no_abort by exact Hno'. cbn [fst snd]. split; [reflexivity|].
  rewrite flat_map_concat_map, map_map, <- flat_map_concat_map.
  symmetry. now apply Permutation.Permutation_flat_map.
Qed.

End UtilityProperties.

(* ================================================================= *)
(** ** More on the blocking launcher *)

Section LauncherProperties.
Import Py Logging Effect Xjfx Facts.
Local Open Scope Z_scope.

Lemma filter_error_output_records (c : ProcStreamClassifier.t)
      (lines : list str) :
  filter is_error (map (output_record c) lines) = [].
Proof. induction lines as [|l ls IH]; [reflexivity | exact IH]. Qed.

Lemma logged_stdout_phase_no_error (c : Subprocess.Child)
      (stdout stderr : option Z) (pd : ProcData) :
  filter is_error (logged (stdout_phase c stdout stderr pd)) = [].
Proof.
  rewrite stdout_phase_spec.
  destruct (truthy_int stdout); [|reflexivity].
  destruct (eq_int stdout (Some PIPE)); [|reflexivity].
  apply filter_error_output_records.
Qed.

Lemma logged_stderr_phase_no_error (c : Subprocess.Child)
      (stderr : option Z) (pd : ProcData) :
  filter is_error (logged (stderr_phase c stderr pd)) = [].
Proof.
  rewrite stderr_phase_spec.
  destruct (truthy_int stderr && negb (eq_int stderr (Some STDOUT)));
    [|reflexivity].
  destruct (eq_int stderr (Some PIPE)); [|reflexivity].
  apply filter_error_output_records.
Qed.

(** The reporter logs at error level only. *)
Lemma display_proc_result_all_error (lvl : Z) (args : list str) (ign : bool)
      (pd : ProcData) :
  filter is_error (logged (_display_proc_result lvl args ign pd))
  = logged (_display_proc_result lvl args ign pd).
Proof.
  rewrite display_proc_result_unfold.
  destruct (negb ign && negb (retcode pd =? 0)); [|reflexivity].
  rewrite logged_bind. simpl. f_equal.
  destruct (lvl >? DEBUG); [|reflexivity].
  apply forallb_filter_id, forallb_forall. intros r Hr.
  pose proof (logged_aggregates_shape pd) as Hs. rewrite Forall_forall in Hs.
  now destruct (Hs r Hr) as (v & _ & _ & ->).
Qed.

(** The error-level records of a launch are those of the reporter, and
    there are none when the launch raises. *)
Lemma exec_cmd_error_records (os : Subprocess.Launch) (lvl : Z)
      (args : list str) (input : option bytes) (stdout stderr : option Z)
      (cwd : option str) (ign dec : bool) :
  filter is_error
         (logged (exec_cmd os lvl args input stdout stderr cwd ign dec))
  = match outcome (exec_cmd os lvl args input stdout stderr cwd ign dec) with
    | Return pd => logged (_display_proc_result lvl args ign pd)
    | Raise _ => []
    end.
Proof.
  destruct os as [e|c]; [now rewrite exec_cmd_launch_fails|].
  rewrite exec_cmd_outcome, exec_cmd_started.
  destruct (outcome (write_phase c input)); [|reflexivity].
  pose proof (logged_stdout_phase_no_error c stdout stderr (ProcData_init dec))
    as H1.
  destruct (stdout_phase c stdout stderr (ProcData_init dec))
    as [l1 [pd1|e1]]; cbn [logged fst outcome snd] in *.
  2:{ cbn [filter is_error levelno executing_record]. exact H1. }
  pose proof (logged_stderr_phase_no_error c stderr pd1) as H2.
  destruct (stderr_phase c stderr pd1) as [l2 [pd2|e2]];
    cbn [logged fst outcome snd] in *.
  2:{ change (executing_record args :: l1 ++ l2)
        with ([executing_record args] ++ l1 ++ l2).
      now rewrite !filter_app, H1, H2. }
  change (executing_record args :: l1 ++ l2 ++ ?l)
    with ([executing_record args] ++ l1 ++ l2 ++ l).
  rewrite !filter_app, H1, H2. cbn [app filter is_error levelno executing_record].
  change (DEBUG =? ERROR) with false. cbv iota. cbn [app].
  unfold report_phase. rewrite logged_bind.
  rewrite filter_app, display_proc_result_all_error.
  destruct (outcome (_display_proc_result _ _ _ _)); cbn; now rewrite app_nil_r.
Qed.


(** The policies the two tests of [exec_cmd] tell apart. *)
Lemma eq_int_true (a : option Z) (z : Z) :
  eq_int a (Some z) = true -> a = Some z.
Proof.
  destruct a as [x|]; [|discriminate]. cbn [eq_int].
  intros H. apply Z.eqb_eq in H. now subst.
Qed.

Lemma truthy_int_false (a : option Z) :
  truthy_int a = false ->
  (a = None \/ a = Some 0) /\ eq_int a (Some PIPE) = false.
Proof.
  destruct a as [x|]; [|auto]. cbn [truthy_int eq_int].
  destruct (Z.eqb_spec x 0) as [->|]; [auto | discriminate].
Qed.

Lemma drains_stderr_false (a : option Z) :
  truthy_int a && negb (eq_int a (Some STDOUT)) = false ->
  (a = None \/ a = Some 0 \/ a = Some STDOUT)
  /\ eq_int a (Some PIPE) = false.
Proof.
  destruct (truthy_int a) eqn:T.
  - cbn [andb]. intros H. apply negb_false_iff, eq_int_true in H.
    subst a. auto.
  - intros _. destruct (truthy_int_false a T) as [[->| ->] E]; auto.
Qed.

(** X13. A [ProcData] that [exec_cmd] returned holds what the child
    wrote: the call started a child, the buffer of a piped stream holds
    exactly the bytes that stream delivered up to its end-of-file, the
    buffer of a stream that is not piped is empty, [retcode] is the exit
    status of the child, whatever it is, and [decode_output] is as the
    caller gave it. A call returns only with the standard output inherited
    or piped and the standard error inherited, piped or merged. This is
    about the result of a call that returns, not about which calls do. *)
Theorem exec_cmd_result_holds_what_the_child_wrote
        (os : Subprocess.Launch) (lvl : Z) (args : list str)
        (input : option bytes) (stdout stderr : option Z) (cwd : option str)
        (ign dec : bool) (pd : ProcData) :
  outcome (exec_cmd os lvl args input stdout stderr cwd ign dec) = Return pd ->
  exists c,
    os = Subprocess.LaunchStarts c
    /\ pd = mkProcData dec
                       (if eq_int stdout (Some PIPE)
                        then Subprocess.out_data c else [])
                       (if eq_int stderr (Some PIPE)
                        then Subprocess.err_data c else [])
                       (Subprocess.exit_status c)
    /\ (stdout = None \/ stdout = Some 0 \/ stdout = Some PIPE)
    /\ (stderr = None \/ stderr = Some 0 \/ stderr = Some PIPE
        \/ stderr = Some STDOUT).
Proof.
  destruct os as [e|c]; [now rewrite exec_cmd_launch_fails|].
  rewrite exec_cmd_outcome. intros H. exists c. split; [reflexivity|].
  destruct (outcome (write_phase c input)); [|discriminate].
  rewrite stdout_phase_spec in H.
  destruct (truthy_int stdout) eqn:To.
  - destruct (eq_int stdout (Some PIPE)) eqn:Po; [|discriminate].
    destruct (all_decode (iter_lines (Subprocess.out_data c)));
      [|discriminate].
    cbn [outcome snd] in H. rewrite stderr_phase_spec in H.
    apply eq_int_true in Po.
    destruct (truthy_int stderr && negb (eq_int stderr (Some STDOUT))) eqn:Te.
    + destruct (eq_int stderr (Some PIPE)) eqn:Pe; [|discriminate].
      destruct (all_decode (iter_lines (Subprocess.err_data c)));
        [|discriminate].
      apply eq_int_true in Pe. injection H as <-. auto 6.
    + destruct (drains_stderr_false stderr Te) as [Hse ->].
      injection H as <-. split; [reflexivity|]. split; [auto|].
      destruct Hse as [->|[->| ->]]; auto.
  - destruct (truthy_int_false stdout To) as [Hso ->].
    cbn [outcome snd] in H. rewrite stderr_phase_spec in H.
    destruct (truthy_int stderr && negb (eq_int stderr (Some STDOUT))) eqn:Te.
    + destruct (eq_int stderr (Some PIPE)) eqn:Pe; [|discriminate].
      destruct (all_decode (iter_lines (Subprocess.err_data c)));
        [|discriminate].
      apply eq_int_true in Pe. injection H as <-.
      split; [reflexivity|]. split; [|auto].
      destruct Hso as [->| ->]; auto.
    + destruct (drains_stderr_false stderr Te) as [Hse ->].
      injection H as <-. split; [reflexivity|]. split.
      * destruct Hso as [->| ->]; auto.
      * destruct Hse as [->|[->| ->]]; auto.
Qed.

(** X14. [exec_cmd] cannot redirect a stream to a file descriptor: with
    [stdout] an integer other than [0] and [PIPE], or [stderr] an integer
    other than [0], [PIPE] and [STDOUT], the policy is truthy, [Popen]
    makes no stream for it, and the launch never returns a [ProcData]. *)
Theorem exec_cmd_never_returns_for_descriptor
        (os : Subprocess.Launch) (lvl : Z) (args : list str)
        (input : option bytes) (stdout stderr : option Z) (cwd : option str)
        (ign dec : bool) (fd : Z) :
  (stdout = Some fd /\ fd <> 0 /\ fd <> PIPE)
  \/ (stderr = Some fd /\ fd <> 0 /\ fd <> PIPE /\ fd <> STDOUT) ->
  forall pd,
    outcome (exec_cmd os lvl args input stdout stderr cwd ign dec)
    <> Return pd.
Proof.
  intros H pd. destruct os as [e|c]; [now rewrite exec_cmd_launch_fails|].
  rewrite exec_cmd_outcome.
  destruct (outcome (write_phase c input)); [|discriminate].
  rewrite stdout_phase_spec.
  destruct H as [(-> & H0 & Hp) | (-> & H0 & Hp & Hs)].
  - cbn [truthy_int eq_int].
    apply Z.eqb_neq in H0, Hp. rewrite H0, Hp. cbn. discriminate.
  - destruct (truthy_int stdout).
    + destruct (eq_int stdout (Some PIPE)); [|discriminate].
      destruct (all_decode _); [|discriminate].
      cbn [outcome snd]. rewrite stderr_phase_spec. cbn [truthy_int eq_int].
      apply Z.eqb_neq in H0, Hp, Hs. rewrite H0, Hp, Hs. cbn. discriminate.
    + cbn [outcome snd]. rewrite stderr_phase_spec. cbn [truthy_int eq_int].
      apply Z.eqb_neq in H0, Hp, Hs. rewrite H0, Hp, Hs. cbn. discriminate.
Qed.

(** X15. Reading the views of a [ProcData] that [exec_cmd] returned never
    raises: with [decode_output] the buffers decode, because every line of
    them was decoded during the drain; without it the views are the raw
    buffers. *)
Theorem exec_cmd_result_views_never_raise
        (os : Subprocess.Launch) (lvl : Z) (args : list str)
        (input : option bytes) (stdout stderr : option Z) (cwd : option str)
        (ign dec : bool) (pd : ProcData) :
  outcome (exec_cmd os lvl args input stdout stderr cwd ign dec) = Return pd ->
  decode_output pd = dec
  /\ (dec = true ->
      exists out err,
        utf8_decode (_stdout pd) = Some out
        /\ utf8_decode (_stderr pd) = Some err
        /\ ProcData_stdout pd = ([], Return (PyStr out))
        /\ ProcData_stderr pd = ([], Return (PyStr err)))
  /\ (dec = false ->
      ProcData_stdout pd = ([], Return (PyBytes (_stdout pd)))
      /\ ProcData_stderr pd = ([], Return (PyBytes (_stderr pd)))).
Proof.
  destruct os as [e|c]; [now rewrite exec_cmd_launch_fails|].
  rewrite exec_cmd_outcome.
  destruct (outcome (write_phase c input)); [|discriminate].
  pose proof (@stdout_phase_decodes c stdout stderr dec) as H1.
  pose proof (stdout_phase_spec c stdout stderr (ProcData_init dec)) as S1.
  destruct (stdout_phase c stdout stderr (ProcData_init dec))
    as [l1 [pd1|e1]]; cbn [outcome snd]; [|discriminate].
  destruct (H1 pd1 eq_refl) as [Ho He].
  assert (D1 : decode_output pd1 = dec).
  { revert S1. destruct (truthy_int stdout);
      [destruct (eq_int stdout (Some PIPE));
       [destruct (all_decode (iter_lines (Subprocess.out_data c)))|]|];
      intros S1; try discriminate S1; injection S1 as _ E1; now rewrite E1. }
  pose proof (@stderr_phase_decodes c stderr pd1) as H2.
  pose proof (stderr_phase_spec c stderr pd1) as S2.
  destruct (stderr_phase c stderr pd1) as [l2 [pd2|e2]];
    cbn [outcome snd]; [|discriminate].
  destruct (H2 pd2 He eq_refl) as [Ho2 He2].
  assert (D2 : decode_output pd2 = dec).
  { revert S2.
    destruct (truthy_int stderr && negb (eq_int stderr (Some STDOUT)));
      [destruct (eq_int stderr (Some PIPE));
       [destruct (all_decode (iter_lines (Subprocess.err_data c)))|]|];
      intros S2; try discriminate S2; injection S2 as _ E2; now rewrite E2. }
  intros [= <-]. split; [exact D2|].
  unfold ProcData_stdout, ProcData_stderr, decode.
  cbn [decode_output _stdout _stderr ProcData_set_retcode].
  rewrite D2, Ho2. split; intros ->.
  - destruct (utf8_decode (_stdout pd1)) as [out|]; [|congruence].
    destruct (utf8_decode (_stderr pd2)) as [err|]; [|congruence].
    exists out, err. repeat split.
  - split; reflexivity.
Qed.

(** X16. The reporting options decide what is logged and nothing else:
    whether [exec_cmd] returns or raises, and what it returns or raises,
    is the same for every log level and every [ignore_retcode]. *)
Theorem exec_cmd_outcome_ignores_reporting_options
        (os : Subprocess.Launch) (lvl lvl' : Z) (args : list str)
        (input : option bytes) (stdout stderr : option Z) (cwd : option str)
        (ign ign' dec : bool) :
  outcome (exec_cmd os lvl args input stdout stderr cwd ign dec)
  = outcome (exec_cmd os lvl' args input stdout stderr cwd ign' dec).
Proof.
  destruct os as [e|c]; [now rewrite !exec_cmd_launch_fails|].
  now rewrite !exec_cmd_outcome.
Qed.

(** X17. [exec_cmd] logs at error level only to report a command that
    ran to its end with a non-zero exit: a launch that raises logs no
    error-level record, nor does one that returns with exit code 0 or with
    [ignore_retcode]; and one that returns a non-zero exit code without
    [ignore_retcode] logs the report of that command and exit code as its
    first error-level record. *)
Theorem exec_cmd_error_level_records
        (os : Subprocess.Launch) (lvl : Z) (args : list str)
        (input : option bytes) (stdout stderr : option Z) (cwd : option str)
        (ign dec : bool) :
  (forall e,
      outcome (exec_cmd os lvl args input stdout stderr cwd ign dec) = Raise e ->
      filter is_error
             (logged (exec_cmd os lvl args input stdout stderr cwd ign dec))
      = [])
  /\ (forall pd,
         outcome (exec_cmd os lvl args input stdout stderr cwd ign dec)
         = Return pd ->
         (ign = true \/ retcode pd = 0 ->
          filter is_error
                 (logged (exec_cmd os lvl args input stdout stderr cwd ign dec))
          = [])
         /\ (ign = false -> retcode pd <> 0 ->
             exists rest,
               filter is_error
                      (logged (exec_cmd os lvl args input stdout stderr cwd
                                        ign dec))
               = returned_record args (retcode pd) :: rest)).
Proof.
  rewrite exec_cmd_error_records. split.
  - now intros e ->.
  - intros pd ->. rewrite display_proc_result_unfold. split.
    + intros [-> | ->]; [reflexivity|]. now rewrite andb_false_r.
    + intros -> Hrc. apply Z.eqb_neq in Hrc. rewrite Hrc. cbn [negb andb].
      rewrite logged_bind. eexists. reflexivity.
Qed.

(** X18. When both streams are piped and [exec_cmd] returns, its debug
    records are the announcement of the command, then one record per line
    of standard output with the classifier [STDOUT], then one record per
    line of standard error with the classifier [STDERR]: every line of
    standard output is logged before any line of standard error. *)
Theorem exec_cmd_logs_stdout_lines_before_stderr_lines
        (os : Subprocess.Launch) (lvl : Z) (args : list str)
        (input : option bytes) (cwd : option str) (ign dec : bool)
        (pd : ProcData) :
  outcome (exec_cmd os lvl args input (Some PIPE) (Some PIPE) cwd ign dec)
  = Return pd ->
  exists out_lines err_lines,
    filter is_debug
           (logged (exec_cmd os lvl args input (Some PIPE) (Some PIPE) cwd
                             ign dec))
    = executing_record args
      :: map (output_record ProcStreamClassifier.STDOUT) out_lines
      ++ map (output_record ProcStreamClassifier.STDERR) err_lines
    /\ map Some out_lines = map utf8_decode (iter_lines (_stdout pd))
    /\ map Some err_lines = map utf8_decode (iter_lines (_stderr pd)).
Proof.
  destruct os as [e|c]; [now rewrite exec_cmd_launch_fails|].
  rewrite exec_cmd_started.
  destruct (outcome (write_phase c input)); [|discriminate].
  rewrite stdout_phase_spec. cbn [truthy_int eq_int PIPE Subprocess.PIPE
                                  Z.eqb Pos.eqb negb].
  destruct (all_decode (iter_lines (Subprocess.out_data c))) eqn:Do;
    [|discriminate].
  rewrite stderr_phase_spec.
  cbn [truthy_int eq_int PIPE STDOUT Subprocess.PIPE Subprocess.STDOUT
                  Z.eqb Pos.eqb negb andb].
  destruct (all_decode (iter_lines (Subprocess.err_data c))) eqn:De;
    [|discriminate].
  cbn [outcome snd logged fst]. intros H.
  apply report_phase_returns in H. subst pd.
  exists (decoded_prefix (iter_lines (Subprocess.out_data c))),
         (decoded_prefix (iter_lines (Subprocess.err_data c))).
  split; [|split; now apply decoded_prefix_all].
  change (executing_record args :: ?l) with ([executing_record args] ++ l) at 1.
  rewrite !filter_app, report_phase_no_debug, app_nil_r.
  unfold stdout_classifier. cbn [eq_int STDOUT Subprocess.STDOUT Z.eqb Pos.eqb].
  now rewrite !filter_debug_output_records.
Qed.

(** X19. A launch that fails before the drains leaves nothing but the
    announcement in the log and raises what failed: the exception of
    [Popen] when the child cannot be started, the exception of the write
    when the input cannot be written; no line is drained and nothing is
    reported. *)
Theorem exec_cmd_early_failure_logs_only_the_announcement
        (os : Subprocess.Launch) (lvl : Z) (args : list str)
        (input : option bytes) (stdout stderr : option Z) (cwd : option str)
        (ign dec : bool) (e : PyError) :
  os = Subprocess.LaunchFails e
  \/ (exists c data, os = Subprocess.LaunchStarts c
                     /\ input = Some data
                     /\ Subprocess.write_error c = Some e) ->
  exec_cmd os lvl args input stdout stderr cwd ign dec
  = ([executing_record args], Raise e).
Proof.
  intros [-> | (c & data & -> & -> & Hw)].
  - apply exec_cmd_launch_fails.
  - rewrite exec_cmd_started. unfold write_phase. now rewrite Hw.
Qed.

End LauncherProperties.

(* ================================================================= *)
(** ** Instances *)

Section Instances.
Import Py Logging Effect Xjfx Facts.
Import Iteration Grouping Prompting Setup_logging Threads.

(** The four lines of the docstring of [grouper], on ['ABCDEFG'] with
    [n = 3]. *)
Lemma grouper_docstring_examples :
  grouper (list_ascii_of_string "ABCDEFG") 3 GrouperIncomplete.FILL "x"%char
  = Some (Iterates (mkRun [list_ascii_of_string "ABC";
                           list_ascii_of_string "DEF";
                           list_ascii_of_string "Gxx"] None))
  /\ grouper (list_ascii_of_string "ABCDEFG") 3 GrouperIncomplete.STRICT
             "x"%char
     = Some (Iterates (mkRun [list_ascii_of_string "ABC";
                              list_ascii_of_string "DEF"] (Some ValueError)))
  /\ grouper (list_ascii_of_string "ABCDEFG") 3 GrouperIncomplete.IGNORE
             "x"%char
     = Some (Iterates (mkRun [list_ascii_of_string "ABC";
                              list_ascii_of_string "DEF"] None))
  /\ grouper (list_ascii_of_string "ABCDEFG") 3 GrouperIncomplete.REMAINDER
             "x"%char
     = Some (Iterates (mkRun [list_ascii_of_string "ABC";
                              list_ascii_of_string "DEF";
                              list_ascii_of_string "G"] None)).
Proof. repeat split. Qed.

Lemma grouper_fill_pads_witness :
  (0 < 3)%Z
  /\ exists tuples pad,
      grouper [1; 2; 3; 4; 5; 6; 7] 3 GrouperIncomplete.FILL 0
      = Some (Iterates (mkRun tuples None))
      /\ Forall (fun t => length t = Z.to_nat 3) tuples
      /\ concat tuples = [1; 2; 3; 4; 5; 6; 7] ++ repeat 0 pad
      /\ pad < Z.to_nat 3
      /\ (length [1; 2; 3; 4; 5; 6; 7] mod Z.to_nat 3 = 0 -> pad = 0).
Proof.
  split; [lia|].
  apply (@grouper_fill_pads nat [1; 2; 3; 4; 5; 6; 7] 3 0). lia.
Defined.

Lemma grouper_ignore_drops_tail_witness :
  (0 < 3)%Z
  /\ exists tuples dropped,
      grouper [1; 2; 3; 4; 5; 6; 7] 3 GrouperIncomplete.IGNORE 0
      = Some (Iterates (mkRun tuples None))
      /\ Forall (fun t => length t = Z.to_nat 3) tuples
      /\ [1; 2; 3; 4; 5; 6; 7] = concat tuples ++ dropped
      /\ length dropped = length [1; 2; 3; 4; 5; 6; 7] mod Z.to_nat 3.
Proof.
  split; [lia|].
  apply (@grouper_ignore_drops_tail nat [1; 2; 3; 4; 5; 6; 7] 3 0). lia.
Defined.

Lemma grouper_strict_raises_after_full_groups_witness :
  (0 < 3)%Z
  /\ exists tuples,
      grouper [1; 2; 3; 4; 5; 6; 7] 3 GrouperIncomplete.IGNORE 0
      = Some (Iterates (mkRun tuples None))
      /\ grouper [1; 2; 3; 4; 5; 6; 7] 3 GrouperIncomplete.STRICT 0
         = Some (Iterates
                   (mkRun tuples
                          (if length [1; 2; 3; 4; 5; 6; 7] mod Z.to_nat 3 =? 0
                           then None else Some ValueError))).
Proof.
  split; [lia|].
  apply (@grouper_strict_raises_after_full_groups
           nat [1; 2; 3; 4; 5; 6; 7] 3 0).
  lia.
Defined.

Lemma grouper_remainder_partitions_witness :
  (0 < 3)%Z
  /\ exists full last,
      grouper [1; 2; 3; 4; 5; 6; 7] 3 GrouperIncomplete.REMAINDER 0
      = Some (Iterates (mkRun (full ++ last) None))
      /\ Forall (fun t => length t = Z.to_nat 3) full
      /\ concat (full ++ last) = [1; 2; 3; 4; 5; 6; 7]
      /\ (last = [] /\ length [1; 2; 3; 4; 5; 6; 7] mod Z.to_nat 3 = 0
          \/ exists t, last = [t]
                       /\ length t = length [1; 2; 3; 4; 5; 6; 7] mod Z.to_nat 3
                       /\ 0 < length t).
Proof.
  split; [lia|].
  apply (@grouper_remainder_partitions nat [1; 2; 3; 4; 5; 6; 7] 3 0). lia.
Defined.

Lemma grouper_nonpositive_size_witness :
  (-2 <= 0)%Z
  /\ grouper [1; 2; 3] (-2) GrouperIncomplete.FILL 0 = Some (Iterates exhausted)
  /\ grouper [1; 2; 3] (-2) GrouperIncomplete.STRICT 0 = Some (Iterates exhausted)
  /\ grouper [1; 2; 3] (-2) GrouperIncomplete.IGNORE 0 = Some (Iterates exhausted)
  /\ grouper [1; 2; 3] 0 GrouperIncomplete.REMAINDER 0
     = Some (CallRaises ZeroDivisionError).
Proof.
  split; [lia|].
  apply (@grouper_nonpositive_size nat [1; 2; 3] (-2) 0). lia.
Defined.

Lemma grouper_modes_agree_on_exact_division_witness :
  (0 < 3)%Z
  /\ length [1; 2; 3; 4; 5; 6] mod Z.to_nat 3 = 0
  /\ exists tuples,
      concat tuples = [1; 2; 3; 4; 5; 6]
      /\ Forall (fun t => length t = Z.to_nat 3) tuples
      /\ forall mode,
          grouper [1; 2; 3; 4; 5; 6] 3 mode 0
          = Some (Iterates (mkRun tuples None)).
Proof.
  split; [lia|]. split; [reflexivity|].
  apply (@grouper_modes_agree_on_exact_division nat [1; 2; 3; 4; 5; 6] 3 0);
    [lia | reflexivity].
Defined.

Lemma grouper_remainder_negative_size_witness :
  (-3 < 0)%Z
  /\ exists tuples,
      grouper [1; 2; 3; 4; 5; 6; 7] (-3) GrouperIncomplete.REMAINDER 0
      = Some (Iterates (mkRun tuples None))
      /\ (tuples = []
          /\ (Z.of_nat (length [1; 2; 3; 4; 5; 6; 7]) mod (-3) = 0)%Z
          \/ exists dropped t,
              tuples = [t]
              /\ [1; 2; 3; 4; 5; 6; 7] = dropped ++ t
              /\ Z.of_nat (length dropped)
                 = Z.min (- (Z.of_nat (length [1; 2; 3; 4; 5; 6; 7]) mod (-3)))
                         (Z.of_nat (length [1; 2; 3; 4; 5; 6; 7]))).
Proof.
  split; [lia|].
  apply (@grouper_remainder_negative_size nat [1; 2; 3; 4; 5; 6; 7] (-3) 0).
  lia.
Defined.



(** Lower case on ASCII never gives the letter [Y]. *)
Lemma ascii_lower_never_upper_y (s : str) : ascii_lower s <> lit "Y".
Proof.
  destruct s as [|c [|d s]]; cbn; try discriminate.
  destruct ((65 <=? c) && (c <=? 90))%N eqn:E.
  - apply andb_prop in E as [E1 E2]. apply N.leb_le in E1.
    intros [= F]. lia.
  - intros [= ->]. discriminate E.
Qed.

Lemma ascii_lower_idempotent (s : str) :
  ascii_lower (ascii_lower s) = ascii_lower s.
Proof.
  unfold ascii_lower. rewrite map_map. apply map_ext. intros c.
  destruct ((65 <=? c) && (c <=? 90))%N eqn:E.
  - apply andb_prop in E as [E1 E2]. apply N.leb_le in E1, E2.
    destruct ((65 <=? c + 32) && (c + 32 <=? 90))%N eqn:F; [|reflexivity].
    apply andb_prop in F as [F1 F2]. apply N.leb_le in F2. lia.
  - now rewrite E.
Qed.

Lemma get_answer_always_lowers_the_answer_witness :
  Forall (fun a => forall s, ascii_lower s <> a) [lit "Y"]
  /\ snd (get_answer ascii_lower (lit "Y") (lit "Continue?") [lit "Y"] false)
     = false.
Proof.
  assert (H : Forall (fun a => forall s, ascii_lower s <> a) [lit "Y"]).
  { constructor; [exact ascii_lower_never_upper_y | constructor]. }
  split; [exact H|].
  exact (proj2 (@get_answer_always_lowers_the_answer
                  ascii_lower (lit "Y") (lit "Continue?") [lit "Y"]) H).
Defined.

Lemma get_yes_accepts_yes_y_or_nothing_witness :
  (forall s, ascii_lower (ascii_lower s) = ascii_lower s)
  /\ ascii_lower (lit "yes") = lit "yes"
  /\ ascii_lower (lit "y") = lit "y"
  /\ ascii_lower [] = []
  /\ fst (get_yes ascii_lower (lit "YES") (lit "Continue?"))
     = lit "Continue?" ++ lit " [Y|n] "
  /\ (snd (get_yes ascii_lower (lit "YES") (lit "Continue?")) = true
      <-> ascii_lower (lit "YES") = lit "yes"
          \/ ascii_lower (lit "YES") = lit "y"
          \/ ascii_lower (lit "YES") = []).
Proof.
  split; [exact ascii_lower_idempotent|].
  split; [reflexivity|]. split; [reflexivity|]. split; [reflexivity|].
  exact (@get_yes_accepts_yes_y_or_nothing
           ascii_lower (lit "YES") (lit "Continue?")
           ascii_lower_idempotent eq_refl eq_refl eq_refl).
Defined.

Lemma thr_exec_logs_each_failure_once_witness :
  (forall w, Some 4%Z = Some w -> (0 < w)%Z)
  /\ Permutation.Permutation [1; 2; 3] (rev [1; 2; 3])
  /\ ~ In Aborts (map second_fails [1; 2; 3])
  /\ snd (thr_exec second_fails [1; 2; 3] (Some 4%Z) (rev [1; 2; 3])) = None
  /\ Permutation.Permutation
       (fst (thr_exec second_fails [1; 2; 3] (Some 4%Z) (rev [1; 2; 3])))
       (flat_map (fun a => match second_fails a with
                           | Fails text => [task_error_record text]
                           | _ => []
                           end) [1; 2; 3]).
Proof.
  assert (Hw : forall w, Some 4%Z = Some w -> (0 < w)%Z)
    by (intros w [= <-]; lia).
  assert (Hp : Permutation.Permutation [1; 2; 3] (rev [1; 2; 3]))
    by apply Permutation.Permutation_rev.
  assert (Hn : ~ In Aborts (map second_fails [1; 2; 3])).
  { cbn. intros [F|[F|[F|[]]]]; discriminate F. }
  split; [exact Hw|]. split; [exact Hp|]. split; [exact Hn|].
  exact (@thr_exec_logs_each_failure_once
           nat second_fails [1; 2; 3] (rev [1; 2; 3]) (Some 4%Z) Hw Hp Hn).
Defined.

Lemma exec_cmd_result_holds_what_the_child_wrote_witness :
  outcome (exec_cmd (Subprocess.LaunchStarts
                       (Subprocess.mkChild None [x6f; x0a] [x65] 7))
                    INFO [lit "make"] None (Some PIPE) (Some PIPE) None
                    false false)
  = Return (mkProcData false [x6f; x0a] [x65] 7)
  /\ exists c,
      Subprocess.LaunchStarts (Subprocess.mkChild None [x6f; x0a] [x65] 7)
      = Subprocess.LaunchStarts c
      /\ mkProcData false [x6f; x0a] [x65] 7
         = mkProcData false (Subprocess.out_data c) (Subprocess.err_data c)
                      (Subprocess.exit_status c).
Proof.
  split; [reflexivity|].
  destruct (@exec_cmd_result_holds_what_the_child_wrote
              (Subprocess.LaunchStarts
                 (Subprocess.mkChild None [x6f; x0a] [x65] 7))
              INFO [lit "make"] None (Some PIPE) (Some PIPE) None
              false false (mkProcData false [x6f; x0a] [x65] 7) eq_refl)
    as (c & Hc & Hpd & _).
  exists c. split; [exact Hc | exact Hpd].
Defined.

Lemma exec_cmd_never_returns_for_descriptor_witness :
  (Some 5%Z = Some 5%Z /\ 5%Z <> 0%Z /\ 5%Z <> PIPE)
  /\ outcome (exec_cmd (Subprocess.LaunchStarts (silent_child 0)) INFO
                       [lit "true"] None (Some 5%Z) None None false true)
     <> Return (mkProcData true [] [] 0).
Proof.
  assert (H : Some 5%Z = Some 5%Z /\ 5%Z <> 0%Z /\ 5%Z <> PIPE).
  { split; [reflexivity|]. split; discriminate. }
  split; [exact H|].
  exact (@exec_cmd_never_returns_for_descriptor
           (Subprocess.LaunchStarts (silent_child 0)) INFO [lit "true"] None
           (Some 5%Z) None None false true 5%Z (or_introl H)
           (mkProcData true [] [] 0)).
Defined.

Lemma exec_cmd_result_views_never_raise_witness :
  outcome (exec_cmd (Subprocess.LaunchStarts
                       (Subprocess.mkChild None [x6f; x0a] [x65] 0))
                    INFO [lit "make"] None (Some PIPE) (Some PIPE) None
                    false true)
  = Return (mkProcData true [x6f; x0a] [x65] 0)
  /\ decode_output (mkProcData true [x6f; x0a] [x65] 0) = true.
Proof.
  split; [reflexivity|].
  apply (@exec_cmd_result_views_never_raise
           (Subprocess.LaunchStarts
              (Subprocess.mkChild None [x6f; x0a] [x65] 0))
           INFO [lit "make"] None (Some PIPE) (Some PIPE) None false true
           (mkProcData true [x6f; x0a] [x65] 0) eq_refl).
Defined.

Lemma exec_cmd_error_level_records_witness :
  outcome (exec_cmd (Subprocess.LaunchStarts (silent_child 1)) INFO
                    [lit "false"] None (Some PIPE) (Some PIPE) None true true)
  = Return (mkProcData true [] [] 1)
  /\ filter is_error
            (logged (exec_cmd (Subprocess.LaunchStarts (silent_child 1)) INFO
                              [lit "false"] None (Some PIPE) (Some PIPE) None
                              true true))
     = [].
Proof.
  split; [reflexivity|].
  apply (proj1 (proj2 (@exec_cmd_error_level_records
                         (Subprocess.LaunchStarts (silent_child 1)) INFO
                         [lit "false"] None (Some PIPE) (Some PIPE) None
                         true true)
                      (mkProcData true [] [] 1) eq_refl)).
  left. reflexivity.
Defined.

Lemma exec_cmd_logs_stdout_lines_before_stderr_lines_witness :
  outcome (exec_cmd (Subprocess.LaunchStarts
                       (Subprocess.mkChild None [x6f; x0a] [x65] 0))
                    DEBUG [lit "make"] None (Some PIPE) (Some PIPE) None
                    false true)
  = Return (mkProcData true [x6f; x0a] [x65] 0)
  /\ exists out_lines err_lines,
      filter is_debug
             (logged (exec_cmd (Subprocess.LaunchStarts
                                  (Subprocess.mkChild None [x6f; x0a] [x65] 0))
                               DEBUG [lit "make"] None (Some PIPE) (Some PIPE)
                               None false true))
      = executing_record [lit "make"]
        :: map (output_record ProcStreamClassifier.STDOUT) out_lines
        ++ map (output_record ProcStreamClassifier.STDERR) err_lines
      /\ map Some out_lines
         = map utf8_decode
               (iter_lines (_stdout (mkProcData true [x6f; x0a] [x65] 0)))
      /\ map Some err_lines
         = map utf8_decode
               (iter_lines (_stderr (mkProcData true [x6f; x0a] [x65] 0))).
Proof.
  split; [reflexivity|].
  exact (@exec_cmd_logs_stdout_lines_before_stderr_lines
           (Subprocess.LaunchStarts
              (Subprocess.mkChild None [x6f; x0a] [x65] 0))
           DEBUG [lit "make"] None None false true
           (mkProcData true [x6f; x0a] [x65] 0) eq_refl).
Defined.

Lemma exec_cmd_early_failure_logs_only_the_announcement_witness :
  (exists c data,
      Subprocess.LaunchStarts (Subprocess.mkChild (Some (OSError 32)) [] [] 0)
      = Subprocess.LaunchStarts c
      /\ Some [x68; x69] = Some data
      /\ Subprocess.write_error c = Some (OSError 32))
  /\ exec_cmd (Subprocess.LaunchStarts
                 (Subprocess.mkChild (Some (OSError 32)) [] [] 0))
              INFO [lit "cat"] (Some [x68; x69]) (Some PIPE) (Some PIPE) None
              false true
     = ([executing_record [lit "cat"]], Raise (OSError 32)).
Proof.
  assert (H : exists c data,
             Subprocess.LaunchStarts
               (Subprocess.mkChild (Some (OSError 32)) [] [] 0)
             = Subprocess.LaunchStarts c
             /\ Some [x68; x69] = Some data
             /\ Subprocess.write_error c = Some (OSError 32)).
  { eexists _, _. repeat split. }
  split; [exact H|].
  exact (@exec_cmd_early_failure_logs_only_the_announcement
           (Subprocess.LaunchStarts
              (Subprocess.mkChild (Some (OSError 32)) [] [] 0))
           INFO [lit "cat"] (Some [x68; x69]) (Some PIPE) (Some PIPE) None
           false true (OSError 32) (or_intror H)).
Defined.

End Instances.
